(** * Room registry of phira-mp (src/domain/rooms/RoomManager.ts)

    A shallow embedding of [InMemoryRoomManager] and the proofs of its
    registry properties.

    Modelling conventions.
    - A JavaScript [Map] is an insertion-ordered list of entries with
      pairwise distinct keys ([JsMap]); [set] overwrites in place or
      appends, [delete] drops the entry, iteration follows the list.
    - Player identifiers are TypeScript [number]s, which the registry
      only compares: as keys of a [Map] (SameValueZero, where NaN is the
      same value as NaN) and with the operator [===] (where NaN equals
      nothing).  They are modelled by [number]: an integer or NaN, with
      the two comparisons [same_value_zero] and [strict_eq]; the other
      values of the type behave like the integers in both.
    - [maxPlayers] is a positive integer capacity and is modelled in [Z].
    - [UserInfo] and [RoomState] are imported from protocol/Commands and
      are opaque to the registry: they are parameters of the development,
      with the literal [{ state: 'SelectChart' }] and the projection
      [state.state] that the registry uses.
    - The injected [Logger] is modelled as a trace of structured entries.
    - [Date.now()] is an input of [createRoom].
    - Methods run in a state-and-exception monad over the manager. *)

From Stdlib Require Import List String ZArith Bool Lia.
Import ListNotations.
Local Open Scope string_scope.
Local Open Scope list_scope.
Local Open Scope Z_scope.

(** ** Keys of a JavaScript Map *)

Class EqKey (K : Type) := {
  keq : K -> K -> bool;
  keq_spec : forall x y : K, reflect (x = y) (keq x y)
}.

#[export] Instance EqKey_string : EqKey string :=
  {| keq := String.eqb; keq_spec := String.eqb_spec |}.

(** The numbers used as player identifiers. *)
Inductive number :=
| Num (z : Z)
| NaN.

Coercion Num : Z >-> number.

(** The comparison of [Map] keys. *)
Definition same_value_zero (x y : number) : bool :=
  match x, y with
  | Num a, Num b => a =? b
  | NaN, NaN => true
  | _, _ => false
  end.

(** The operator [===]. *)
Definition strict_eq (x y : number) : bool :=
  match x, y with
  | Num a, Num b => a =? b
  | _, _ => false
  end.

Lemma same_value_zero_spec x y : reflect (x = y) (same_value_zero x y).
Proof.
  destruct x as [a|], y as [b|]; simpl; try (constructor; congruence).
  destruct (Z.eqb_spec a b); constructor; congruence.
Qed.

#[export] Instance EqKey_number : EqKey number :=
  {| keq := same_value_zero; keq_spec := same_value_zero_spec |}.

Lemma strict_eq_true x y : strict_eq x y = true -> x = y /\ x <> NaN.
Proof.
  destruct x as [a|], y as [b|]; simpl; try discriminate.
  intro E. apply Z.eqb_eq in E. subst. split; congruence.
Qed.

Lemma strict_eq_refl x : x <> NaN -> strict_eq x x = true.
Proof. destruct x as [a|]; simpl; [intros _; apply Z.eqb_refl | congruence]. Qed.

Lemma strict_eq_neq x y : x <> y -> strict_eq x y = false.
Proof.
  intro N. destruct (strict_eq x y) eqn:E; [|reflexivity].
  apply strict_eq_true in E. tauto.
Qed.

Lemma keq_refl {K} `{EqKey K} (k : K) : keq k k = true.
Proof. destruct (keq_spec k k); congruence. Qed.

Lemma keq_neq {K} `{EqKey K} (k k' : K) : k <> k' -> keq k k' = false.
Proof. intro N. destruct (keq_spec k k'); congruence. Qed.

(** ** Insertion-ordered maps *)

Module JsMap.

Section Defs.
Context {K V : Type} `{EqKey K}.

Definition t : Type := list (K * V).

Definition empty : t := [].

Fixpoint get (k : K) (m : t) : option V :=
  match m with
  | [] => None
  | (k', v) :: m' => if keq k k' then Some v else get k m'
  end.

Definition has (k : K) (m : t) : bool :=
  match get k m with Some _ => true | None => false end.

(** [m.set(k, v)]: an existing key keeps its position. *)
Fixpoint set (k : K) (v : V) (m : t) : t :=
  match m with
  | [] => [(k, v)]
  | (k', v') :: m' => if keq k k' then (k, v) :: m' else (k', v') :: set k v m'
  end.

(** The map after [m.delete(k)]; the call itself returns [has k m]. *)
Fixpoint delete (k : K) (m : t) : t :=
  match m with
  | [] => []
  | (k', v') :: m' => if keq k k' then m' else (k', v') :: delete k m'
  end.

Definition size (m : t) : nat := List.length m.

Definition keys (m : t) : list K := map fst m.

Definition values (m : t) : list V := map snd m.

Definition entries (m : t) : list (K * V) := m.

(** The data-structure invariant of a Map: no key occurs twice. *)
Definition wf (m : t) : Prop := NoDup (keys m).

End Defs.

Arguments t : clear implicits.

Section Facts.
Context {K V : Type} `{EqKey K}.
Implicit Types (k : K) (v : V) (m : t K V).

Lemma has_get k m : has k m = true <-> exists v, get k m = Some v.
Proof.
  unfold has. destruct (get k m) as [v|]; split.
  - intros _. now exists v.
  - reflexivity.
  - discriminate.
  - intros [v E]. discriminate.
Qed.

Lemma has_false_get k m : has k m = false <-> get k m = None.
Proof. unfold has. destruct (get k m); split; congruence. Qed.

Lemma get_In k v m : get k m = Some v -> In (k, v) m.
Proof.
  induction m as [|[k' v'] m IH]; simpl; [discriminate|].
  destruct (keq_spec k k') as [->|N]; intros E.
  - left. congruence.
  - right. auto.
Qed.

Lemma In_keys_has k m : In k (keys m) <-> has k m = true.
Proof.
  unfold has. induction m as [|[k' v'] m IH]; simpl.
  - split; [tauto | discriminate].
  - destruct (keq_spec k k') as [->|N].
    + split; auto.
    + rewrite <- IH. split; [intros [E|I]; [congruence|exact I] | auto].
Qed.

Lemma In_get k v m : wf m -> In (k, v) m -> get k m = Some v.
Proof.
  unfold wf. induction m as [|[k' v'] m IH]; simpl; [tauto|].
  intros ND [E|I].
  - inversion E; subst. now rewrite keq_refl.
  - inversion ND as [|? ? NI ND']; subst.
    destruct (keq_spec k k') as [->|N]; [|auto].
    exfalso. apply NI. change k' with (fst (k', v)). now apply in_map.
Qed.

Lemma get_set_same k v m : get k (set k v m) = Some v.
Proof.
  induction m as [|[k' v'] m IH]; simpl.
  - now rewrite keq_refl.
  - destruct (keq_spec k k') as [->|N]; simpl.
    + now rewrite keq_refl.
    + now rewrite keq_neq.
Qed.

Lemma get_set_other k k' v m : k <> k' -> get k' (set k v m) = get k' m.
Proof.
  intro N. induction m as [|[k0 v0] m IH]; simpl.
  - rewrite keq_neq; auto.
  - destruct (keq_spec k k0) as [->|N0]; simpl.
    + rewrite !keq_neq; auto.
    + now rewrite IH.
Qed.

Lemma has_set_same k v m : has k (set k v m) = true.
Proof. unfold has. now rewrite get_set_same. Qed.

Lemma has_set_other k k' v m : k <> k' -> has k' (set k v m) = has k' m.
Proof. intro N. unfold has. now rewrite get_set_other. Qed.

Lemma keys_set_present k v m : has k m = true -> keys (set k v m) = keys m.
Proof.
  unfold has. induction m as [|[k' v'] m IH]; simpl; [discriminate|].
  destruct (keq_spec k k') as [->|N]; simpl; [reflexivity|].
  intro E. now rewrite IH.
Qed.

Lemma set_absent k v m : has k m = false -> set k v m = m ++ [(k, v)].
Proof.
  unfold has. induction m as [|[k' v'] m IH]; simpl; [reflexivity|].
  destruct (keq_spec k k') as [->|N]; [discriminate|].
  intro E. now rewrite IH.
Qed.

Lemma size_set k v m :
  size (set k v m) = if has k m then size m else S (size m).
Proof.
  unfold has, size. induction m as [|[k' v'] m IH]; simpl; [reflexivity|].
  destruct (keq_spec k k') as [->|N]; simpl; [reflexivity|].
  rewrite IH. now destruct (get k m).
Qed.

Lemma set_get_same k v m : get k m = Some v -> set k v m = m.
Proof.
  induction m as [|[k' v'] m IH]; simpl; [discriminate|].
  destruct (keq_spec k k') as [->|N]; intro E.
  - congruence.
  - now rewrite IH.
Qed.

Lemma set_set k v v' m : set k v' (set k v m) = set k v' m.
Proof.
  induction m as [|[k0 v0] m IH]; simpl.
  - now rewrite keq_refl.
  - destruct (keq_spec k k0) as [->|N]; simpl.
    + now rewrite keq_refl.
    + now rewrite keq_neq, IH.
Qed.

Lemma In_set k v m x : In x (set k v m) -> x = (k, v) \/ In x m.
Proof.
  induction m as [|[k' v'] m IH]; simpl.
  - intros [E|[]]; auto.
  - destruct (keq_spec k k') as [->|N]; simpl.
    + intros [E|I]; auto.
    + intros [E|I]; auto. destruct (IH I); auto.
Qed.

Lemma wf_set k v m : wf m -> wf (set k v m).
Proof.
  unfold wf. intro ND.
  destruct (has k m) eqn:E.
  - now rewrite keys_set_present.
  - rewrite set_absent by exact E. unfold keys. rewrite map_app. simpl.
    apply NoDup_app; [exact ND | repeat constructor; simpl; tauto |].
    intros a Ia [<-|[]]. apply In_keys_has in Ia. congruence.
Qed.

Lemma delete_absent k m : has k m = false -> delete k m = m.
Proof.
  unfold has. induction m as [|[k' v'] m IH]; simpl; [reflexivity|].
  destruct (keq_spec k k') as [->|N]; [discriminate|].
  intro E. now rewrite IH.
Qed.

Lemma size_delete k m : has k m = true -> S (size (delete k m)) = size m.
Proof.
  unfold has, size. induction m as [|[k' v'] m IH]; simpl; [discriminate|].
  destruct (keq_spec k k') as [->|N]; simpl; [reflexivity|].
  intro E. now rewrite IH.
Qed.

Lemma get_delete_other k k' m : k <> k' -> get k' (delete k m) = get k' m.
Proof.
  intro N. induction m as [|[k0 v0] m IH]; simpl; [reflexivity|].
  destruct (keq_spec k k0) as [->|N0]; simpl.
  - rewrite keq_neq; auto.
  - now rewrite IH.
Qed.

Lemma has_delete_other k k' m : k <> k' -> has k' (delete k m) = has k' m.
Proof. intro N. unfold has. now rewrite get_delete_other. Qed.

Lemma In_delete k m x : In x (delete k m) -> In x m.
Proof.
  induction m as [|[k' v'] m IH]; simpl; [tauto|].
  destruct (keq_spec k k') as [->|N]; simpl; [auto|].
  intros [E|I]; auto.
Qed.

Lemma In_keys_delete k m a : In a (keys (delete k m)) -> In a (keys m).
Proof.
  unfold keys. intro I. apply in_map_iff in I as [[a' v'] [E I]].
  apply in_map_iff. exists (a', v'). split; [exact E|]. eapply In_delete; eauto.
Qed.

Lemma wf_delete k m : wf m -> wf (delete k m).
Proof.
  unfold wf. induction m as [|[k' v'] m IH]; simpl; [auto|].
  intro ND. inversion ND as [|? ? NI ND']; subst.
  destruct (keq_spec k k') as [->|N]; simpl; [exact ND'|].
  constructor; [|auto]. intro I. apply NI. eapply In_keys_delete; eauto.
Qed.

Lemma get_delete_same k m : wf m -> get k (delete k m) = None.
Proof.
  unfold wf. induction m as [|[k' v'] m IH]; simpl; [reflexivity|].
  intro ND. inversion ND as [|? ? NI ND']; subst.
  destruct (keq_spec k k') as [->|N]; simpl.
  - apply has_false_get. destruct (has k' m) eqn:E; [|reflexivity].
    apply In_keys_has in E. contradiction.
  - rewrite keq_neq by exact N. auto.
Qed.

Lemma has_delete_same k m : wf m -> has k (delete k m) = false.
Proof. intro W. apply has_false_get. now apply get_delete_same. Qed.

Lemma has_first k v m : has k ((k, v) :: m) = true.
Proof. unfold has. simpl. now rewrite keq_refl. Qed.

Lemma In_delete_set k v m x :
  has k m = true -> In x (delete k (set k v m)) -> In x m.
Proof.
  unfold has. induction m as [|[k' v'] m IH]; simpl; [discriminate|].
  destruct (keq_spec k k') as [->|N]; simpl.
  - rewrite keq_refl. auto.
  - rewrite keq_neq by exact N. simpl. intros E [I|I]; auto.
Qed.

Lemma get_delete_set k v m : wf m -> get k (delete k (set k v m)) = None.
Proof. intro W. apply get_delete_same. now apply wf_set. Qed.

Lemma size_delete_set k v m :
  has k m = true -> S (size (delete k (set k v m))) = size m.
Proof.
  intro E. rewrite size_delete by apply has_set_same.
  rewrite size_set. now rewrite E.
Qed.

Lemma size_keys m : List.length (keys m) = size m.
Proof. unfold keys, size. apply length_map. Qed.

Lemma get_filter_absent (P : K * V -> bool) k m :
  ~ In k (keys m) -> get k (filter P m) = None.
Proof.
  induction m as [|[k' v'] m IH]; simpl; [reflexivity|].
  intro NI. destruct (P (k', v')); simpl.
  - rewrite keq_neq by (intro; subst; tauto). apply IH. tauto.
  - apply IH. tauto.
Qed.

Lemma get_filter (P : K * V -> bool) k m :
  wf m ->
  get k (filter P m) =
  match get k m with
  | Some v => if P (k, v) then Some v else None
  | None => None
  end.
Proof.
  unfold wf. induction m as [|[k' v'] m IH]; simpl; [reflexivity|].
  intro ND. inversion ND as [|? ? NI ND']; subst.
  destruct (keq_spec k k') as [->|N].
  - destruct (P (k', v')); simpl.
    + now rewrite keq_refl.
    + now apply get_filter_absent.
  - destruct (P (k', v')); simpl.
    + rewrite keq_neq by exact N. auto.
    + auto.
Qed.

Lemma delete_set_absent k v m : has k m = false -> delete k (set k v m) = m.
Proof.
  unfold has. induction m as [|[k' v'] m IH]; simpl.
  - now rewrite keq_refl.
  - destruct (keq_spec k k') as [->|N]; [discriminate|]. simpl.
    rewrite keq_neq by exact N. intro E. now rewrite IH.
Qed.

Lemma keys_delete k m :
  wf m -> keys (delete k m) = filter (fun a => negb (keq k a)) (keys m).
Proof.
  unfold wf. induction m as [|[k' v'] m IH]; simpl; [reflexivity|].
  intro ND. inversion ND as [|? ? NI ND']; subst.
  destruct (keq_spec k k') as [->|N]; simpl.
  - symmetry. apply forallb_filter_id. apply forallb_forall. intros a I.
    apply negb_true_iff, keq_neq. intro E. subst. contradiction.
  - now rewrite IH.
Qed.

Lemma size_0_empty m : size m = 0%nat -> m = [].
Proof. destruct m; [reflexivity | discriminate]. Qed.

Lemma In_set_wf k v m k' v' :
  wf m -> In (k', v') (set k v m) ->
  (k' = k /\ v' = v) \/ (k' <> k /\ In (k', v') m).
Proof.
  intros W I. destruct (keq_spec k' k) as [->|N].
  - left. split; [reflexivity|].
    apply (In_get _ _ _ (wf_set k v m W)) in I. rewrite get_set_same in I.
    congruence.
  - right. split; [exact N|]. apply In_set in I as [E|I]; [congruence | exact I].
Qed.

Lemma In_delete_wf k m k' v' :
  wf m -> In (k', v') (delete k m) -> k' <> k /\ In (k', v') m.
Proof.
  intros W I. split; [|eapply In_delete; eauto].
  intros ->. apply (In_get _ _ _ (wf_delete k m W)) in I.
  rewrite get_delete_same in I by exact W. discriminate.
Qed.

Lemma set_split k v v0 m :
  get k m = Some v0 ->
  exists m1 m2,
    m = m1 ++ (k, v0) :: m2 /\ set k v m = m1 ++ (k, v) :: m2.
Proof.
  induction m as [|[k' v'] m IH]; simpl; [discriminate|].
  destruct (keq_spec k k') as [->|N]; intro G.
  - inversion G; subst. now exists [], m.
  - destruct (IH G) as [m1 [m2 [E1 E2]]].
    exists ((k', v') :: m1), m2. simpl. now rewrite <- E1, E2.
Qed.

Lemma delete_set_any k v m : has k m = true -> delete k (set k v m) = delete k m.
Proof.
  unfold has. induction m as [|[k' v'] m IH]; simpl; [discriminate|].
  destruct (keq_spec k k') as [->|N]; simpl.
  - now rewrite keq_refl.
  - rewrite keq_neq by exact N. intro E. now rewrite IH.
Qed.

Lemma keys_same_survive m m' :
  keys m' = keys m -> keys m' = filter (fun a => has a m') (keys m).
Proof.
  intro E. rewrite <- E. symmetry. apply forallb_filter_id, forallb_forall.
  intros a I. now apply In_keys_has.
Qed.

Lemma keys_delete_survive k m :
  wf m -> keys (delete k m) = filter (fun a => has a (delete k m)) (keys m).
Proof.
  intro W. rewrite keys_delete by exact W. apply filter_ext_in. intros a I.
  destruct (keq_spec k a) as [<-|N]; simpl.
  - symmetry. now apply has_delete_same.
  - rewrite has_delete_other by exact N. symmetry. now apply In_keys_has.
Qed.

Lemma keys_survive_trans m m1 m2 :
  keys m1 = filter (fun a => has a m1) (keys m) ->
  keys m2 = filter (fun a => has a m2) (keys m1) ->
  (forall a, has a m2 = true -> has a m1 = true) ->
  keys m2 = filter (fun a => has a m2) (keys m).
Proof.
  intros E1 E2 Sub. rewrite E2, E1. clear E1 E2.
  induction (keys m) as [|a l IH]; simpl; [reflexivity|].
  destruct (has a m1) eqn:H1; simpl.
  - destruct (has a m2); [now rewrite IH | exact IH].
  - destruct (has a m2) eqn:H2; [|exact IH].
    apply Sub in H2. congruence.
Qed.

Lemma has_delete_has k m a : has a (delete k m) = true -> has a m = true.
Proof. intro E. apply In_keys_has. apply In_keys_has in E.
  eapply In_keys_delete; eauto. Qed.

End Facts.

End JsMap.

(** ** The collaborators of the registry *)

(** What the registry imports from protocol/Commands: the two payload
    types, the literal [{ state: 'SelectChart' }] and the field
    [state.state] read when a state change is logged. *)
Class Commands := {
  UserInfo : Type;
  RoomState : Type;
  SelectChart : RoomState;
  state_tag : RoomState -> string
}.

(** The logger receives a message and a structured payload. *)
Inductive Level := LvDebug | LvInfo | LvWarn.

Inductive LogValue :=
| LString (s : string)
| LNumber (n : number)
| LBoolean (b : bool).

Record LogEntry := {
  level : Level;
  message : string;
  meta : list (string * LogValue)
}.

(** A call either returns a value or throws an [Error] with a message. *)
Inductive Outcome (A : Type) :=
| Returned (a : A)
| Thrown (msg : string).
Arguments Returned {A} a.
Arguments Thrown {A} msg.

(** ** Data model *)

Section Registry.
Context `{Commands}.

Record PlayerInfo := {
  user : UserInfo;
  connectionId : string;
  isReady : bool
}.

Record Room := {
  id : string;
  name : string;
  ownerId : number;
  players : JsMap.t number PlayerInfo;
  maxPlayers : Z;
  password : option string;
  state : RoomState;
  locked : bool;
  cycle : bool;
  live : bool;
  createdAt : Z
}.

(** The options of [createRoom]; the fields carry the prefix [o_], their
    names being those of [Room]'s fields.  An omitted optional field is
    [None]. *)
Record CreateRoomOptions := {
  o_id : string;
  o_name : string;
  o_ownerId : number;
  o_ownerInfo : UserInfo;
  o_connectionId : string;
  o_maxPlayers : option Z;
  o_password : option string
}.

(** Field assignments. *)
Definition with_players (r : Room) (p : JsMap.t number PlayerInfo) : Room :=
  {| id := id r; name := name r; ownerId := ownerId r; players := p;
     maxPlayers := maxPlayers r; password := password r; state := state r;
     locked := locked r; cycle := cycle r; live := live r;
     createdAt := createdAt r |}.

Definition with_ownerId (r : Room) (o : number) : Room :=
  {| id := id r; name := name r; ownerId := o; players := players r;
     maxPlayers := maxPlayers r; password := password r; state := state r;
     locked := locked r; cycle := cycle r; live := live r;
     createdAt := createdAt r |}.

Definition with_state (r : Room) (st : RoomState) : Room :=
  {| id := id r; name := name r; ownerId := ownerId r; players := players r;
     maxPlayers := maxPlayers r; password := password r; state := st;
     locked := locked r; cycle := cycle r; live := live r;
     createdAt := createdAt r |}.

Definition with_locked (r : Room) (b : bool) : Room :=
  {| id := id r; name := name r; ownerId := ownerId r; players := players r;
     maxPlayers := maxPlayers r; password := password r; state := state r;
     locked := b; cycle := cycle r; live := live r;
     createdAt := createdAt r |}.

Definition with_cycle (r : Room) (b : bool) : Room :=
  {| id := id r; name := name r; ownerId := ownerId r; players := players r;
     maxPlayers := maxPlayers r; password := password r; state := state r;
     locked := locked r; cycle := b; live := live r;
     createdAt := createdAt r |}.

Definition with_isReady (p : PlayerInfo) (b : bool) : PlayerInfo :=
  {| user := user p; connectionId := connectionId p; isReady := b |}.

(** The manager: the private [rooms] map and what was sent to [logger]. *)
Record InMemoryRoomManager := {
  rooms : JsMap.t string Room;
  logger : list LogEntry
}.

Definition new_manager : InMemoryRoomManager :=
  {| rooms := JsMap.empty; logger := [] |}.

(** ** Methods as computations over the manager *)

Definition M (A : Type) : Type :=
  InMemoryRoomManager -> Outcome A * InMemoryRoomManager.

Definition ret {A} (a : A) : M A := fun s => (Returned a, s).

Definition bind {A B} (c : M A) (f : A -> M B) : M B :=
  fun s =>
    match c s with
    | (Returned a, s') => f a s'
    | (Thrown msg, s') => (Thrown msg, s')
    end.

Definition throw {A} (msg : string) : M A := fun s => (Thrown msg, s).

Notation "x <- c ;; k" := (bind c (fun x => k))
  (at level 61, c at next level, right associativity).
Notation "c ;; k" := (bind c (fun _ => k))
  (at level 61, right associativity).

Definition this_rooms : M (JsMap.t string Room) :=
  fun s => (Returned (rooms s), s).

Definition update_rooms (f : JsMap.t string Room -> JsMap.t string Room) : M unit :=
  fun s => (Returned tt, {| rooms := f (rooms s); logger := logger s |}).

Definition log (lv : Level) (msg : string) (payload : list (string * LogValue)) : M unit :=
  fun s =>
    (Returned tt,
     {| rooms := rooms s;
        logger := logger s ++ [{| level := lv; message := msg; meta := payload |}] |}).

(** A room is held by reference: assigning to one of its fields is
    modelled by storing the updated record under the key it already
    has, which keeps its place in the iteration order. *)
Definition store (roomId : string) (room : Room) : M unit :=
  update_rooms (JsMap.set roomId room).

Definition LSize {K V} (m : JsMap.t K V) : LogValue :=
  LNumber (Z.of_nat (JsMap.size m)).

Definition createRoom (options : CreateRoomOptions) (now : Z) : M Room :=
  let id := o_id options in
  let name := o_name options in
  let ownerId := o_ownerId options in
  let maxPlayers := match o_maxPlayers options with Some n => n | None => 8 end in
  rs <- this_rooms ;;
  if JsMap.has id rs then
    throw (String.append "Room with id " (String.append id " already exists"))
  else
    let players :=
      JsMap.set ownerId
        {| user := o_ownerInfo options;
           connectionId := o_connectionId options;
           isReady := false |}
        JsMap.empty in
    let room :=
      {| id := id; name := name; ownerId := ownerId; players := players;
         maxPlayers := maxPlayers; password := o_password options;
         state := SelectChart; locked := false; cycle := false; live := true;
         createdAt := now |} in
    update_rooms (JsMap.set id room) ;;
    rs' <- this_rooms ;;
    log LvInfo "Room created"
      [("id", LString id); ("name", LString name); ("ownerId", LNumber ownerId);
       ("totalRooms", LSize rs')] ;;
    ret room.

Definition getRoom (id : string) : M (option Room) :=
  rs <- this_rooms ;;
  ret (JsMap.get id rs).

Definition deleteRoom (id : string) : M bool :=
  rs <- this_rooms ;;
  let deleted := JsMap.has id rs in
  update_rooms (JsMap.delete id) ;;
  (if deleted then
     rs' <- this_rooms ;;
     log LvInfo "Room deleted" [("id", LString id); ("totalRooms", LSize rs')]
   else ret tt) ;;
  ret deleted.

Definition listRooms : M (list Room) :=
  rs <- this_rooms ;;
  ret (JsMap.values rs).

Definition count : M nat :=
  rs <- this_rooms ;;
  ret (JsMap.size rs).

Definition addPlayerToRoom (roomId : string) (userId : number) (userInfo : UserInfo)
    (connectionId : string) : M bool :=
  rs <- this_rooms ;;
  match JsMap.get roomId rs with
  | None =>
      log LvWarn "Cannot add player to non-existent room"
        [("roomId", LString roomId); ("userId", LNumber userId)] ;;
      ret false
  | Some room =>
      if Z.of_nat (JsMap.size (players room)) >=? maxPlayers room then
        log LvWarn "Cannot add player to full room"
          [("roomId", LString roomId); ("userId", LNumber userId);
           ("maxPlayers", LNumber (maxPlayers room))] ;;
        ret false
      else if locked room then
        log LvWarn "Cannot add player to locked room"
          [("roomId", LString roomId); ("userId", LNumber userId)] ;;
        ret false
      else
        let room' :=
          with_players room
            (JsMap.set userId
               {| user := userInfo; connectionId := connectionId; isReady := false |}
               (players room)) in
        store roomId room' ;;
        log LvInfo "Player added to room"
          [("roomId", LString roomId); ("userId", LNumber userId);
           ("playerCount", LSize (players room'))] ;;
        ret true
  end.

Definition isRoomOwner (roomId : string) (userId : number) : M bool :=
  rs <- this_rooms ;;
  match JsMap.get roomId rs with
  | Some room => ret (strict_eq (ownerId room) userId)
  | None => ret false
  end.

Definition changeRoomOwner (roomId : string) (newOwnerId : number) : M bool :=
  rs <- this_rooms ;;
  match JsMap.get roomId rs with
  | None => ret false
  | Some room =>
      if negb (JsMap.has newOwnerId (players room)) then ret false
      else
        store roomId (with_ownerId room newOwnerId) ;;
        log LvInfo "Room owner changed"
          [("roomId", LString roomId); ("newOwnerId", LNumber newOwnerId)] ;;
        ret true
  end.

Definition removePlayerFromRoom (roomId : string) (userId : number) : M bool :=
  rs <- this_rooms ;;
  match JsMap.get roomId rs with
  | None => ret false
  | Some room =>
      let removed := JsMap.has userId (players room) in
      let room' := with_players room (JsMap.delete userId (players room)) in
      store roomId room' ;;
      (if removed then
         log LvInfo "Player removed from room"
           [("roomId", LString roomId); ("userId", LNumber userId);
            ("playerCount", LSize (players room'))] ;;
         if Nat.eqb (JsMap.size (players room')) 0 then
           deleteRoom roomId ;; ret tt
         else if strict_eq (ownerId room') userId then
           match JsMap.keys (players room') with
           | newOwner :: _ => changeRoomOwner roomId newOwner ;; ret tt
           | [] => ret tt
           end
         else ret tt
       else ret tt) ;;
      ret removed
  end.

(** The [for ... of this.rooms.values()] loop with its early return. *)
Fixpoint first_room_of (userId : number) (vals : list Room) : option Room :=
  match vals with
  | [] => None
  | room :: rest =>
      if JsMap.has userId (players room) then Some room
      else first_room_of userId rest
  end.

Definition getRoomByUserId (userId : number) : M (option Room) :=
  rs <- this_rooms ;;
  ret (first_room_of userId (JsMap.values rs)).

Definition setRoomState (roomId : string) (st : RoomState) : M bool :=
  rs <- this_rooms ;;
  match JsMap.get roomId rs with
  | None => ret false
  | Some room =>
      store roomId (with_state room st) ;;
      log LvDebug "Room state changed"
        [("roomId", LString roomId); ("state", LString (state_tag st))] ;;
      ret true
  end.

Definition setRoomLocked (roomId : string) (b : bool) : M bool :=
  rs <- this_rooms ;;
  match JsMap.get roomId rs with
  | None => ret false
  | Some room =>
      store roomId (with_locked room b) ;;
      log LvDebug "Room lock changed"
        [("roomId", LString roomId); ("locked", LBoolean b)] ;;
      ret true
  end.

Definition setRoomCycle (roomId : string) (b : bool) : M bool :=
  rs <- this_rooms ;;
  match JsMap.get roomId rs with
  | None => ret false
  | Some room =>
      store roomId (with_cycle room b) ;;
      log LvDebug "Room cycle changed"
        [("roomId", LString roomId); ("cycle", LBoolean b)] ;;
      ret true
  end.

Definition setPlayerReady (roomId : string) (userId : number) (ready : bool) : M bool :=
  rs <- this_rooms ;;
  match JsMap.get roomId rs with
  | None => ret false
  | Some room =>
      match JsMap.get userId (players room) with
      | None => ret false
      | Some player =>
          store roomId
            (with_players room
               (JsMap.set userId (with_isReady player ready) (players room))) ;;
          log LvDebug "Player ready state changed"
            [("roomId", LString roomId); ("userId", LNumber userId);
             ("ready", LBoolean ready)] ;;
          ret true
      end
  end.

(** The first loop of [cleanupEmptyRooms]: the ids pushed to [emptyRooms]. *)
Fixpoint collect_empty (es : list (string * Room)) (emptyRooms : list string) : list string :=
  match es with
  | [] => emptyRooms
  | (id, room) :: rest =>
      if Nat.eqb (JsMap.size (players room)) 0
      then collect_empty rest (emptyRooms ++ [id])
      else collect_empty rest emptyRooms
  end.

(** [ids.forEach((id) => this.deleteRoom(id))]. *)
Fixpoint forEach_deleteRoom (ids : list string) : M unit :=
  match ids with
  | [] => ret tt
  | id :: rest => deleteRoom id ;; forEach_deleteRoom rest
  end.

Definition cleanupEmptyRooms : M unit :=
  rs <- this_rooms ;;
  let emptyRooms := collect_empty (JsMap.entries rs) [] in
  forEach_deleteRoom emptyRooms ;;
  if Nat.ltb 0 (List.length emptyRooms) then
    log LvInfo "Empty rooms cleaned up"
      [("count", LNumber (Z.of_nat (List.length emptyRooms)))]
  else ret tt.

(** ** Calls, and sequences of calls *)

Inductive Call :=
| CreateRoom (options : CreateRoomOptions) (now : Z)
| GetRoom (id : string)
| DeleteRoom (id : string)
| ListRooms
| Count
| AddPlayerToRoom (roomId : string) (userId : number) (userInfo : UserInfo) (connectionId : string)
| RemovePlayerFromRoom (roomId : string) (userId : number)
| GetRoomByUserId (userId : number)
| SetRoomState (roomId : string) (st : RoomState)
| SetRoomLocked (roomId : string) (b : bool)
| SetRoomCycle (roomId : string) (b : bool)
| SetPlayerReady (roomId : string) (userId : number) (ready : bool)
| IsRoomOwner (roomId : string) (userId : number)
| ChangeRoomOwner (roomId : string) (newOwnerId : number)
| CleanupEmptyRooms.

Inductive Value :=
| VRoom (r : Room)
| VMaybeRoom (r : option Room)
| VRooms (rs : list Room)
| VBoolean (b : bool)
| VNumber (n : nat)
| VVoid.

Definition call (c : Call) : M Value :=
  match c with
  | CreateRoom options now => r <- createRoom options now ;; ret (VRoom r)
  | GetRoom id => r <- getRoom id ;; ret (VMaybeRoom r)
  | DeleteRoom id => b <- deleteRoom id ;; ret (VBoolean b)
  | ListRooms => rs <- listRooms ;; ret (VRooms rs)
  | Count => n <- count ;; ret (VNumber n)
  | AddPlayerToRoom roomId userId userInfo connectionId =>
      b <- addPlayerToRoom roomId userId userInfo connectionId ;; ret (VBoolean b)
  | RemovePlayerFromRoom roomId userId =>
      b <- removePlayerFromRoom roomId userId ;; ret (VBoolean b)
  | GetRoomByUserId userId => r <- getRoomByUserId userId ;; ret (VMaybeRoom r)
  | SetRoomState roomId st => b <- setRoomState roomId st ;; ret (VBoolean b)
  | SetRoomLocked roomId b' => b <- setRoomLocked roomId b' ;; ret (VBoolean b)
  | SetRoomCycle roomId b' => b <- setRoomCycle roomId b' ;; ret (VBoolean b)
  | SetPlayerReady roomId userId ready =>
      b <- setPlayerReady roomId userId ready ;; ret (VBoolean b)
  | IsRoomOwner roomId userId => b <- isRoomOwner roomId userId ;; ret (VBoolean b)
  | ChangeRoomOwner roomId newOwnerId =>
      b <- changeRoomOwner roomId newOwnerId ;; ret (VBoolean b)
  | CleanupEmptyRooms => cleanupEmptyRooms ;; ret VVoid
  end.

(** The manager after a call, whether it returned or threw. *)
Definition after {A} (c : M A) (s : InMemoryRoomManager) : InMemoryRoomManager :=
  snd (c s).

Definition result {A} (c : M A) (s : InMemoryRoomManager) : Outcome A :=
  fst (c s).

Definition run (cs : list Call) (s : InMemoryRoomManager) : InMemoryRoomManager :=
  fold_left (fun s c => after (call c) s) cs s.

(** Every room the registry holds, as [listRooms] enumerates them. *)
Definition registered (s : InMemoryRoomManager) (room : Room) : Prop :=
  In room (JsMap.values (rooms s)).

(** ** Vocabulary of the statements *)

(** The outcomes of a sequence of calls, one per call. *)
Fixpoint outcomes (cs : list Call) (s : InMemoryRoomManager) : list (Outcome Value) :=
  match cs with
  | [] => []
  | c :: cs' => result (call c) s :: outcomes cs' (after (call c) s)
  end.

(** One [addPlayerToRoom] on [roomId] for every listed player. *)
Definition join_calls (roomId : string) (js : list (number * UserInfo * string)) : list Call :=
  map (fun j => AddPlayerToRoom roomId (fst (fst j)) (snd (fst j)) (snd j)) js.

(** Calls after which a lock set on [roomId] is still in place: all but
    unlocking it, and creating a room under that id anew. *)
Definition keeps_lock (roomId : string) (c : Call) : Prop :=
  match c with
  | SetRoomLocked k false => k <> roomId
  | CreateRoom options _ => o_id options <> roomId
  | _ => True
  end.

(** The room [createRoom] builds. *)
Definition initial_room (options : CreateRoomOptions) (now : Z) : Room :=
  {| id := o_id options; name := o_name options; ownerId := o_ownerId options;
     players :=
       [(o_ownerId options,
         {| user := o_ownerInfo options; connectionId := o_connectionId options;
            isReady := false |})];
     maxPlayers := match o_maxPlayers options with Some n => n | None => 8 end;
     password := o_password options; state := SelectChart; locked := false;
     cycle := false; live := true; createdAt := now |}.

(** [addPlayerToRoom] goes through: neither full nor locked. *)
Definition admits (room : Room) : bool :=
  negb (Z.of_nat (JsMap.size (players room)) >=? maxPlayers room)
  && negb (locked room).

Definition joined (room : Room) (userId : number) (userInfo : UserInfo)
    (connectionId : string) : Room :=
  with_players room
    (JsMap.set userId
       {| user := userInfo; connectionId := connectionId; isReady := false |}
       (players room)).

Definition left (room : Room) (userId : number) : Room :=
  with_players room (JsMap.delete userId (players room)).

(** The entries [cleanupEmptyRooms] collects. *)
Definition is_empty_entry (e : string * Room) : bool :=
  Nat.eqb (JsMap.size (players (snd e))) 0.

(** How a call changes the rooms it keeps.

    A room found in the registry after a call was there before, or is
    the room [createRoom] built, or comes from a room that was there by
    one of the following changes. *)
Inductive room_step : Call -> string -> Room -> Room -> Prop :=
| step_join k r u i c :
    admits r = true ->
    room_step (AddPlayerToRoom k u i c) k r (joined r u i c)
| step_leave k r u :
    JsMap.has u (players r) = true ->
    JsMap.size (players (left r u)) <> 0%nat ->
    strict_eq (ownerId r) u = false ->
    room_step (RemovePlayerFromRoom k u) k r (left r u)
| step_leave_owner k r newOwner rest :
    JsMap.has (ownerId r) (players r) = true ->
    strict_eq (ownerId r) (ownerId r) = true ->
    JsMap.keys (players (left r (ownerId r))) = newOwner :: rest ->
    room_step (RemovePlayerFromRoom k (ownerId r)) k r
      (with_ownerId (left r (ownerId r)) newOwner)
| step_owner k r o :
    JsMap.has o (players r) = true ->
    room_step (ChangeRoomOwner k o) k r (with_ownerId r o)
| step_state k r st : room_step (SetRoomState k st) k r (with_state r st)
| step_locked k r b : room_step (SetRoomLocked k b) k r (with_locked r b)
| step_cycle k r b : room_step (SetRoomCycle k b) k r (with_cycle r b)
| step_ready k r u p b :
    JsMap.get u (players r) = Some p ->
    room_step (SetPlayerReady k u b) k r
      (with_players r (JsMap.set u (with_isReady p b) (players r))).

Definition kept_or_changed (c : Call) (s : InMemoryRoomManager)
    (k : string) (r' : Room) : Prop :=
  In (k, r') (rooms s) \/
  (exists r, In (k, r) (rooms s) /\ room_step c k r r') \/
  (exists options now,
     c = CreateRoom options now /\ k = o_id options /\
     r' = initial_room options now).

(** Invariant 1 of a room, with the distinctness of the keys of its
    [players] map. *)
Record room_ok (r : Room) : Prop := {
  ok_keys : JsMap.wf (players r);
  ok_nonempty : JsMap.size (players r) <> 0%nat
}.

(** Invariant 2 of a room. *)
Definition owner_ok (r : Room) : Prop :=
  JsMap.has (ownerId r) (players r) = true.

(** A call other than the removal of the player NaN. *)
Definition no_nan_removal (c : Call) : Prop :=
  match c with
  | RemovePlayerFromRoom _ userId => userId <> NaN
  | _ => True
  end.

(** Invariant 3 of a room. *)
Definition within_capacity (r : Room) : Prop :=
  Z.of_nat (JsMap.size (players r)) <= maxPlayers r.

(** A [createRoom] call with a positive [maxPlayers], or none. *)
Definition positive_capacity (c : Call) : Prop :=
  match c with
  | CreateRoom options _ =>
      match o_maxPlayers options with
      | Some n => 0 < n
      | None => True
      end
  | _ => True
  end.

(** The [totalRooms] a log entry reports, for the two entries that
    report one. *)
Definition total_of (e : LogEntry) : option Z :=
  if String.eqb (message e) "Room created" || String.eqb (message e) "Room deleted"
  then
    match find (fun p => String.eqb (fst p) "totalRooms") (meta e) with
    | Some (_, LNumber (Num n)) => Some n
    | _ => None
    end
  else None.

(** The [totalRooms] of the latest entry that reports one; 0 before any. *)
Definition reported_total (l : list LogEntry) : Z :=
  fold_left (fun acc e => match total_of e with Some n => n | None => acc end) l 0.

(** The log agrees with the registry on the number of rooms. *)
Definition log_agrees (s : InMemoryRoomManager) : Prop :=
  reported_total (logger s) = Z.of_nat (JsMap.size (rooms s)).

(** A change [g] of the fields of the room under [roomId], if there is
    one: what a setter does to the registry. *)
Definition touch (roomId : string) (g : Room -> Room) (m : JsMap.t string Room)
    : JsMap.t string Room :=
  match JsMap.get roomId m with
  | Some room => JsMap.set roomId (g room) m
  | None => m
  end.

(** The room id a call names, if it names one. *)
Definition target (c : Call) : option string :=
  match c with
  | CreateRoom options _ => Some (o_id options)
  | GetRoom id => Some id
  | DeleteRoom id => Some id
  | AddPlayerToRoom roomId _ _ _ => Some roomId
  | RemovePlayerFromRoom roomId _ => Some roomId
  | SetRoomState roomId _ => Some roomId
  | SetRoomLocked roomId _ => Some roomId
  | SetRoomCycle roomId _ => Some roomId
  | SetPlayerReady roomId _ _ => Some roomId
  | IsRoomOwner roomId _ => Some roomId
  | ChangeRoomOwner roomId _ => Some roomId
  | ListRooms | Count | GetRoomByUserId _ | CleanupEmptyRooms => None
  end.

(** ** Unfolding the methods

    Each method is rewritten as a direct function of the registry it
    starts from; the later proofs use these equations instead of the
    monadic code. *)

Ltac run_m :=
  unfold after, result, bind, ret, throw, this_rooms, store, update_rooms, log;
  simpl.

Lemma rooms_createRoom options now s :
  rooms (after (createRoom options now) s) =
  if JsMap.has (o_id options) (rooms s) then rooms s
  else JsMap.set (o_id options) (initial_room options now) (rooms s).
Proof.
  unfold createRoom. run_m. now destruct (JsMap.has (o_id options) (rooms s)).
Qed.

Lemma result_createRoom options now s :
  result (createRoom options now) s =
  if JsMap.has (o_id options) (rooms s)
  then Thrown (String.append "Room with id " (String.append (o_id options) " already exists"))
  else Returned (initial_room options now).
Proof.
  unfold createRoom. run_m. now destruct (JsMap.has (o_id options) (rooms s)).
Qed.

Lemma rooms_deleteRoom id s :
  rooms (after (deleteRoom id) s) = JsMap.delete id (rooms s).
Proof.
  unfold deleteRoom. run_m. now destruct (JsMap.has id (rooms s)).
Qed.

Lemma result_deleteRoom id s :
  result (deleteRoom id) s = Returned (JsMap.has id (rooms s)).
Proof.
  unfold deleteRoom. run_m. now destruct (JsMap.has id (rooms s)).
Qed.

Lemma rooms_addPlayerToRoom roomId userId userInfo connectionId s :
  rooms (after (addPlayerToRoom roomId userId userInfo connectionId) s) =
  match JsMap.get roomId (rooms s) with
  | Some room =>
      if admits room
      then JsMap.set roomId (joined room userId userInfo connectionId) (rooms s)
      else rooms s
  | None => rooms s
  end.
Proof.
  unfold addPlayerToRoom, admits. run_m.
  destruct (JsMap.get roomId (rooms s)) as [room|]; [|reflexivity].
  destruct (Z.of_nat (JsMap.size (players room)) >=? maxPlayers room); [reflexivity|].
  now destruct (locked room).
Qed.

Lemma result_addPlayerToRoom roomId userId userInfo connectionId s :
  result (addPlayerToRoom roomId userId userInfo connectionId) s =
  Returned match JsMap.get roomId (rooms s) with
           | Some room => admits room
           | None => false
           end.
Proof.
  unfold addPlayerToRoom, admits. run_m.
  destruct (JsMap.get roomId (rooms s)) as [room|]; [|reflexivity].
  destruct (Z.of_nat (JsMap.size (players room)) >=? maxPlayers room); [reflexivity|].
  now destruct (locked room).
Qed.

Lemma rooms_changeRoomOwner roomId newOwnerId s :
  rooms (after (changeRoomOwner roomId newOwnerId) s) =
  match JsMap.get roomId (rooms s) with
  | Some room =>
      if JsMap.has newOwnerId (players room)
      then JsMap.set roomId (with_ownerId room newOwnerId) (rooms s)
      else rooms s
  | None => rooms s
  end.
Proof.
  unfold changeRoomOwner. run_m.
  destruct (JsMap.get roomId (rooms s)) as [room|]; [|reflexivity].
  now destruct (JsMap.has newOwnerId (players room)).
Qed.

Lemma result_changeRoomOwner roomId newOwnerId s :
  result (changeRoomOwner roomId newOwnerId) s =
  Returned match JsMap.get roomId (rooms s) with
           | Some room => JsMap.has newOwnerId (players room)
           | None => false
           end.
Proof.
  unfold changeRoomOwner. run_m.
  destruct (JsMap.get roomId (rooms s)) as [room|]; [|reflexivity].
  now destruct (JsMap.has newOwnerId (players room)).
Qed.

Lemma changeRoomOwner_refused roomId newOwnerId s :
  result (changeRoomOwner roomId newOwnerId) s = Returned false ->
  after (changeRoomOwner roomId newOwnerId) s = s.
Proof.
  unfold changeRoomOwner. run_m.
  destruct (JsMap.get roomId (rooms s)) as [room|]; [|reflexivity].
  destruct (JsMap.has newOwnerId (players room)); simpl; [discriminate | reflexivity].
Qed.

Lemma rooms_removePlayerFromRoom roomId userId s :
  rooms (after (removePlayerFromRoom roomId userId) s) =
  match JsMap.get roomId (rooms s) with
  | None => rooms s
  | Some room =>
      if negb (JsMap.has userId (players room)) then rooms s
      else if Nat.eqb (JsMap.size (players (left room userId))) 0
      then JsMap.delete roomId (JsMap.set roomId (left room userId) (rooms s))
      else if strict_eq (ownerId room) userId then
        match JsMap.keys (players (left room userId)) with
        | newOwner :: _ =>
            JsMap.set roomId (with_ownerId (left room userId) newOwner) (rooms s)
        | [] => JsMap.set roomId (left room userId) (rooms s)
        end
      else JsMap.set roomId (left room userId) (rooms s)
  end.
Proof.
  unfold removePlayerFromRoom, left. run_m.
  destruct (JsMap.get roomId (rooms s)) as [room|] eqn:G; [|reflexivity].
  destruct (JsMap.has userId (players room)) eqn:Hu; simpl.
  - destruct (Nat.eqb _ 0) eqn:Z0; simpl.
    + unfold deleteRoom. run_m.
      now destruct (JsMap.has roomId (JsMap.set roomId _ (rooms s))).
    + destruct (strict_eq (ownerId room) userId); simpl; [|reflexivity].
      destruct (JsMap.delete userId (players room)) as [|[newOwner p] rest] eqn:D;
        simpl; [reflexivity|].
      unfold changeRoomOwner. run_m.
      rewrite JsMap.get_set_same. simpl. rewrite JsMap.has_first. simpl.
      now rewrite JsMap.set_set.
  - rewrite JsMap.delete_absent by exact Hu.
    rewrite JsMap.set_get_same; [reflexivity|]. rewrite G. now destruct room.
Qed.

Lemma result_removePlayerFromRoom roomId userId s :
  result (removePlayerFromRoom roomId userId) s =
  Returned match JsMap.get roomId (rooms s) with
           | Some room => JsMap.has userId (players room)
           | None => false
           end.
Proof.
  unfold removePlayerFromRoom. run_m.
  destruct (JsMap.get roomId (rooms s)) as [room|] eqn:G; [|reflexivity].
  destruct (JsMap.has userId (players room)) eqn:Hu; simpl; [|reflexivity].
  destruct (Nat.eqb _ 0) eqn:Z0; simpl.
  - unfold deleteRoom. run_m.
    now destruct (JsMap.has roomId (JsMap.set roomId _ (rooms s))).
  - destruct (strict_eq (ownerId room) userId); simpl; [|reflexivity].
    destruct (JsMap.delete userId (players room)) as [|[newOwner p] rest] eqn:D;
      simpl; [reflexivity|].
    unfold changeRoomOwner. run_m.
    rewrite JsMap.get_set_same. simpl. rewrite JsMap.has_first. reflexivity.
Qed.

Lemma rooms_setRoomState roomId st s :
  rooms (after (setRoomState roomId st) s) =
  match JsMap.get roomId (rooms s) with
  | Some room => JsMap.set roomId (with_state room st) (rooms s)
  | None => rooms s
  end.
Proof.
  unfold setRoomState. run_m. now destruct (JsMap.get roomId (rooms s)).
Qed.

Lemma rooms_setRoomLocked roomId b s :
  rooms (after (setRoomLocked roomId b) s) =
  match JsMap.get roomId (rooms s) with
  | Some room => JsMap.set roomId (with_locked room b) (rooms s)
  | None => rooms s
  end.
Proof.
  unfold setRoomLocked. run_m. now destruct (JsMap.get roomId (rooms s)).
Qed.

Lemma result_setRoomLocked roomId b s :
  result (setRoomLocked roomId b) s =
  Returned (JsMap.has roomId (rooms s)).
Proof.
  unfold setRoomLocked, JsMap.has. run_m.
  now destruct (JsMap.get roomId (rooms s)).
Qed.

Lemma rooms_setRoomCycle roomId b s :
  rooms (after (setRoomCycle roomId b) s) =
  match JsMap.get roomId (rooms s) with
  | Some room => JsMap.set roomId (with_cycle room b) (rooms s)
  | None => rooms s
  end.
Proof.
  unfold setRoomCycle. run_m. now destruct (JsMap.get roomId (rooms s)).
Qed.

Lemma rooms_setPlayerReady roomId userId ready s :
  rooms (after (setPlayerReady roomId userId ready) s) =
  match JsMap.get roomId (rooms s) with
  | Some room =>
      match JsMap.get userId (players room) with
      | Some player =>
          JsMap.set roomId
            (with_players room
               (JsMap.set userId (with_isReady player ready) (players room)))
            (rooms s)
      | None => rooms s
      end
  | None => rooms s
  end.
Proof.
  unfold setPlayerReady. run_m.
  destruct (JsMap.get roomId (rooms s)) as [room|]; [|reflexivity].
  now destruct (JsMap.get userId (players room)).
Qed.

(** The queries leave the manager as it is, log included. *)
Lemma after_getRoom id s : after (getRoom id) s = s.
Proof. reflexivity. Qed.

Lemma after_listRooms s : after listRooms s = s.
Proof. reflexivity. Qed.

Lemma after_count s : after count s = s.
Proof. reflexivity. Qed.

Lemma after_getRoomByUserId userId s : after (getRoomByUserId userId) s = s.
Proof. reflexivity. Qed.

Lemma after_isRoomOwner roomId userId s : after (isRoomOwner roomId userId) s = s.
Proof.
  unfold isRoomOwner. run_m. now destruct (JsMap.get roomId (rooms s)).
Qed.

Lemma result_isRoomOwner roomId userId s :
  result (isRoomOwner roomId userId) s =
  Returned match JsMap.get roomId (rooms s) with
           | Some room => strict_eq (ownerId room) userId
           | None => false
           end.
Proof.
  unfold isRoomOwner. run_m. now destruct (JsMap.get roomId (rooms s)).
Qed.

Lemma collect_empty_filter es acc :
  collect_empty es acc = acc ++ map fst (filter is_empty_entry es).
Proof.
  revert acc. induction es as [|[k r] es IH]; intro acc; simpl.
  - now rewrite app_nil_r.
  - unfold is_empty_entry at 1. simpl.
    destruct (Nat.eqb (JsMap.size (players r)) 0); rewrite IH; simpl.
    + now rewrite <- app_assoc.
    + reflexivity.
Qed.

Lemma rooms_forEach_deleteRoom ids s :
  rooms (after (forEach_deleteRoom ids) s) =
  fold_left (fun m id => JsMap.delete id m) ids (rooms s).
Proof.
  revert s. induction ids as [|i ids IH]; intro s; simpl; [reflexivity|].
  rewrite <- rooms_deleteRoom, <- IH.
  unfold after, bind. simpl.
  pose proof (result_deleteRoom i s) as R. unfold result in R.
  destruct (deleteRoom i s) as [o s']. simpl in *. now subst o.
Qed.

Lemma result_forEach_deleteRoom ids s :
  result (forEach_deleteRoom ids) s = Returned tt.
Proof.
  revert s. induction ids as [|i ids IH]; intro s; simpl; [reflexivity|].
  unfold result, bind. pose proof (result_deleteRoom i s) as R. unfold result in R.
  destruct (deleteRoom i s) as [o s']. simpl in *. subst o. apply IH.
Qed.

Lemma rooms_cleanupEmptyRooms s :
  rooms (after cleanupEmptyRooms s) =
  fold_left (fun m id => JsMap.delete id m)
    (map fst (filter is_empty_entry (rooms s))) (rooms s).
Proof.
  rewrite <- rooms_forEach_deleteRoom.
  set (ids := map fst (filter is_empty_entry (rooms s))).
  unfold cleanupEmptyRooms, JsMap.entries, after, bind, this_rooms. cbv zeta beta.
  rewrite collect_empty_filter. cbn [app]. fold ids.
  pose proof (result_forEach_deleteRoom ids s) as R. unfold result in R.
  destruct (forEach_deleteRoom ids s) as [o s']. simpl in *. subst o.
  now destruct (Nat.ltb 0 (List.length ids)).
Qed.

Lemma sweep_keeps (k : string) (v : Room) ids m :
  ~ In k ids ->
  fold_left (fun m id => JsMap.delete id m) ids ((k, v) :: m) =
  (k, v) :: fold_left (fun m id => JsMap.delete id m) ids m.
Proof.
  revert m. induction ids as [|i ids IH]; intros m NI; [reflexivity|].
  cbn [fold_left].
  change (JsMap.delete i ((k, v) :: m))
    with (if keq i k then m else (k, v) :: JsMap.delete i m).
  simpl in NI. rewrite (keq_neq i k) by (intro; subst; tauto).
  apply IH. tauto.
Qed.

Lemma sweep_filter (m : JsMap.t string Room) :
  JsMap.wf m ->
  fold_left (fun m id => JsMap.delete id m) (map fst (filter is_empty_entry m)) m =
  filter (fun e => negb (is_empty_entry e)) m.
Proof.
  unfold JsMap.wf. induction m as [|[k r] m IH]; intro ND; simpl; [reflexivity|].
  inversion ND as [|? ? NI ND']; subst.
  destruct (is_empty_entry (k, r)); cbn [map fst fold_left negb].
  - change (JsMap.delete k ((k, r) :: m))
      with (if keq k k then m else (k, r) :: JsMap.delete k m).
    rewrite keq_refl. auto.
  - rewrite sweep_keeps; [now rewrite IH|].
    intro I. apply NI. apply in_map_iff in I as [e [E I]].
    apply filter_In in I as [I _]. apply in_map_iff. eauto.
Qed.

Lemma after_bind_ret {A B} (c : M A) (f : A -> B) s :
  after (x <- c ;; ret (f x)) s = after c s.
Proof. unfold after, bind, ret. now destruct (c s) as [[a|msg] s']. Qed.

Lemma result_bind_ret {A B} (c : M A) (f : A -> B) s :
  result (x <- c ;; ret (f x)) s =
  match result c s with
  | Returned a => Returned (f a)
  | Thrown msg => Thrown msg
  end.
Proof. unfold result, bind, ret. now destruct (c s) as [[a|msg] s']. Qed.

Lemma run_snoc cs c s : run (cs ++ [c]) s = after (call c) (run cs s).
Proof. unfold run. now rewrite fold_left_app. Qed.

Lemma step_rooms c s k r' :
  In (k, r') (rooms (after (call c) s)) -> kept_or_changed c s k r'.
Proof.
  assert (upd : forall roomId room new,
    JsMap.get roomId (rooms s) = Some room -> room_step c roomId room new ->
    In (k, r') (JsMap.set roomId new (rooms s)) -> kept_or_changed c s k r').
  { intros roomId room new G St I. apply JsMap.In_set in I as [E|I]; [|now left].
    inversion E; subst. right; left. exists room. split; [|exact St].
    now apply JsMap.get_In. }
  destruct c; unfold call; rewrite after_bind_ret.
  - rewrite rooms_createRoom.
    destruct (JsMap.has (o_id options) (rooms s)); [now left|].
    intro I. apply JsMap.In_set in I as [E|I]; [|now left].
    inversion E; subst. right; right. eauto.
  - rewrite after_getRoom. now left.
  - rewrite rooms_deleteRoom. intro I. left. eapply JsMap.In_delete; eauto.
  - rewrite after_listRooms. now left.
  - rewrite after_count. now left.
  - rewrite rooms_addPlayerToRoom.
    destruct (JsMap.get roomId (rooms s)) as [room|] eqn:G; [|now left].
    destruct (admits room) eqn:A; [|now left].
    apply (upd _ _ _ G). now constructor.
  - rewrite rooms_removePlayerFromRoom.
    destruct (JsMap.get roomId (rooms s)) as [room|] eqn:G; [|now left].
    destruct (JsMap.has userId (players room)) eqn:Hu; simpl; [|now left].
    destruct (Nat.eqb_spec (JsMap.size (JsMap.delete userId (players room))) 0) as [Z0|Z0].
    + intro I. left. eapply JsMap.In_delete_set; [|exact I].
      apply JsMap.has_get. eauto.
    + destruct (strict_eq (ownerId room) userId) eqn:O.
      * destruct (JsMap.keys (JsMap.delete userId (players room))) as [|newOwner rest] eqn:Ks.
        -- exfalso. apply Z0. rewrite <- JsMap.size_keys, Ks. reflexivity.
        -- apply (upd _ _ _ G). destruct (strict_eq_true _ _ O) as [Eo Nn].
           subst userId.
           eapply step_leave_owner; [exact Hu | exact O | exact Ks].
      * apply (upd _ _ _ G). now constructor.
  - rewrite after_getRoomByUserId. now left.
  - rewrite rooms_setRoomState.
    destruct (JsMap.get roomId (rooms s)) as [room|] eqn:G; [|now left].
    apply (upd _ _ _ G). constructor.
  - rewrite rooms_setRoomLocked.
    destruct (JsMap.get roomId (rooms s)) as [room|] eqn:G; [|now left].
    apply (upd _ _ _ G). constructor.
  - rewrite rooms_setRoomCycle.
    destruct (JsMap.get roomId (rooms s)) as [room|] eqn:G; [|now left].
    apply (upd _ _ _ G). constructor.
  - rewrite rooms_setPlayerReady.
    destruct (JsMap.get roomId (rooms s)) as [room|] eqn:G; [|now left].
    destruct (JsMap.get userId (players room)) as [player|] eqn:Gp; [|now left].
    apply (upd _ _ _ G). now constructor.
  - rewrite after_isRoomOwner. now left.
  - rewrite rooms_changeRoomOwner.
    destruct (JsMap.get roomId (rooms s)) as [room|] eqn:G; [|now left].
    destruct (JsMap.has newOwnerId (players room)) eqn:Hn; [|now left].
    apply (upd _ _ _ G). now constructor.
  - rewrite rooms_cleanupEmptyRooms. clear upd. intro I. left. revert I.
    generalize (map fst (filter is_empty_entry (rooms s))) as ids.
    generalize (rooms s) as m.
    intros m ids. revert m. induction ids as [|i ids IH]; intros m; simpl.
    + auto.
    + intro I. eapply JsMap.In_delete. apply IH. exact I.
Qed.

(** ** Invariants *)

Lemma registered_entry s room :
  registered s room <-> exists k, In (k, room) (rooms s).
Proof.
  unfold registered, JsMap.values. rewrite in_map_iff. split.
  - intros [[k r] [E I]]. simpl in E. subst. eauto.
  - intros [k I]. exists (k, room). auto.
Qed.

Lemma initial_room_ok options now : room_ok (initial_room options now).
Proof.
  split; simpl.
  - unfold JsMap.wf. simpl. repeat constructor. simpl. tauto.
  - discriminate.
Qed.

Lemma room_step_ok c k r r' : room_ok r -> room_step c k r r' -> room_ok r'.
Proof.
  intros [W N] St.
  destruct St as [k r u i c A | k r u Hu Nz Ou | k r newOwner rest Ho So Ks | k r o Ho
                | k r st | k r b | k r b | k r u p b G];
    split; simpl; auto.
  - now apply JsMap.wf_set.
  - rewrite JsMap.size_set. destruct (JsMap.has u (players r)); lia.
  - now apply JsMap.wf_delete.
  - now apply JsMap.wf_delete.
  - simpl in Ks. rewrite <- JsMap.size_keys, Ks. discriminate.
  - now apply JsMap.wf_set.
  - rewrite JsMap.size_set. destruct (JsMap.has u (players r)); lia.
Qed.

Lemma initial_room_owner options now : owner_ok (initial_room options now).
Proof. apply JsMap.has_first. Qed.

Lemma room_step_owner c k r r' :
  no_nan_removal c -> owner_ok r -> room_step c k r r' -> owner_ok r'.
Proof.
  unfold owner_ok. intros Nn O St.
  destruct St as [k r u i c A | k r u Hu Nz Ou | k r newOwner rest Ho So Ks | k r o Ho
                | k r st | k r b | k r b | k r u p b G];
    simpl; auto.
  - destruct (same_value_zero_spec u (ownerId r)) as [->|D].
    + apply JsMap.has_set_same.
    + now rewrite JsMap.has_set_other.
  - rewrite JsMap.has_delete_other; [exact O|].
    intro E. subst u. simpl in Nn. rewrite strict_eq_refl in Ou by exact Nn.
    discriminate.
  - simpl in Ks. apply JsMap.In_keys_has. rewrite Ks. now left.
  - destruct (same_value_zero_spec u (ownerId r)) as [->|D].
    + apply JsMap.has_set_same.
    + now rewrite JsMap.has_set_other.
Qed.

Lemma initial_room_capacity options now :
  positive_capacity (CreateRoom options now) ->
  within_capacity (initial_room options now).
Proof.
  unfold positive_capacity, within_capacity. simpl.
  destruct (o_maxPlayers options); lia.
Qed.

Lemma room_step_capacity c k r r' :
  within_capacity r -> room_step c k r r' -> within_capacity r'.
Proof.
  unfold within_capacity. intros C St.
  destruct St as [k r u i c A | k r u Hu Nz Ou | k r newOwner rest Ho So Ks | k r o Ho
                | k r st | k r b | k r b | k r u p b G];
    simpl; auto.
  - unfold admits in A. apply andb_prop in A as [F _].
    apply negb_true_iff in F. rewrite Z.geb_leb in F. apply Z.leb_gt in F.
    rewrite JsMap.size_set. destruct (JsMap.has u (players r)); lia.
  - pose proof (JsMap.size_delete _ _ Hu). lia.
  - pose proof (JsMap.size_delete _ _ Ho). lia.
  - rewrite JsMap.size_set.
    assert (E : JsMap.has u (players r) = true) by (apply JsMap.has_get; eauto).
    rewrite E. lia.
Qed.

(** A property of rooms that the built room has and every change keeps
    holds of every room after every sequence of calls. *)
Lemma run_invariant (P : Room -> Prop) (allowed : Call -> Prop) :
  (forall options now, allowed (CreateRoom options now) -> P (initial_room options now)) ->
  (forall c k r r', P r -> room_step c k r r' -> P r') ->
  forall cs, Forall allowed cs ->
  forall room, registered (run cs new_manager) room -> P room.
Proof.
  intros Pinit Pstep cs. induction cs as [|c cs IH] using rev_ind; intros A room R.
  - destruct R.
  - apply Forall_app in A as [A Ac]. inversion Ac as [|? ? Ac' _]; subst.
    rewrite run_snoc in R. apply registered_entry in R as [k I].
    destruct (step_rooms _ _ _ _ I) as [I'|[[r [I' St]]|[o [n [E [_ ->]]]]]].
    + apply IH; [exact A|]. apply registered_entry. eauto.
    + apply (Pstep c k r); [|exact St]. apply IH; [exact A|].
      apply registered_entry. eauto.
    + subst c. now apply Pinit.
Qed.

Lemma run_invariant_on (P : Room -> Prop) (allowed : Call -> Prop) :
  (forall options now, allowed (CreateRoom options now) -> P (initial_room options now)) ->
  (forall c k r r', allowed c -> P r -> room_step c k r r' -> P r') ->
  forall cs, Forall allowed cs ->
  forall room, registered (run cs new_manager) room -> P room.
Proof.
  intros Pinit Pstep cs. induction cs as [|c cs IH] using rev_ind; intros A room R.
  - destruct R.
  - apply Forall_app in A as [A Ac]. inversion Ac as [|? ? Ac' _]; subst.
    rewrite run_snoc in R. apply registered_entry in R as [k I].
    destruct (step_rooms _ _ _ _ I) as [I'|[[r [I' St]]|[o [n [E [_ ->]]]]]].
    + apply IH; [exact A|]. apply registered_entry. eauto.
    + apply (Pstep c k r); [exact Ac' | |exact St]. apply IH; [exact A|].
      apply registered_entry. eauto.
    + subst c. now apply Pinit.
Qed.

Lemma Forall_True (cs : list Call) : Forall (fun _ => True) cs.
Proof. induction cs; constructor; auto. Qed.

Lemma run_room_ok cs room : registered (run cs new_manager) room -> room_ok room.
Proof.
  apply (run_invariant room_ok (fun _ => True)).
  - intros. apply initial_room_ok.
  - apply room_step_ok.
  - apply Forall_True.
Qed.

(** The registry itself never holds a key twice. *)
Lemma wf_sweep ids (m : JsMap.t string Room) :
  JsMap.wf m -> JsMap.wf (fold_left (fun m id => JsMap.delete id m) ids m).
Proof.
  revert m. induction ids as [|i ids IH]; intros m W; simpl; [exact W|].
  apply IH. now apply JsMap.wf_delete.
Qed.

Lemma wf_call c s : JsMap.wf (rooms s) -> JsMap.wf (rooms (after (call c) s)).
Proof.
  intro W. destruct c; unfold call; rewrite after_bind_ret.
  - rewrite rooms_createRoom.
    destruct (JsMap.has _ _); [exact W | now apply JsMap.wf_set].
  - exact W.
  - rewrite rooms_deleteRoom. now apply JsMap.wf_delete.
  - exact W.
  - exact W.
  - rewrite rooms_addPlayerToRoom.
    destruct (JsMap.get _ _) as [room|]; [|exact W].
    destruct (admits room); [now apply JsMap.wf_set | exact W].
  - rewrite rooms_removePlayerFromRoom.
    destruct (JsMap.get _ _) as [room|]; [|exact W].
    destruct (negb _); [exact W|].
    destruct (Nat.eqb _ _); [now apply JsMap.wf_delete, JsMap.wf_set|].
    destruct (strict_eq _ _); [|now apply JsMap.wf_set].
    destruct (JsMap.keys _); now apply JsMap.wf_set.
  - exact W.
  - rewrite rooms_setRoomState.
    destruct (JsMap.get _ _); [now apply JsMap.wf_set | exact W].
  - rewrite rooms_setRoomLocked.
    destruct (JsMap.get _ _); [now apply JsMap.wf_set | exact W].
  - rewrite rooms_setRoomCycle.
    destruct (JsMap.get _ _); [now apply JsMap.wf_set | exact W].
  - rewrite rooms_setPlayerReady.
    destruct (JsMap.get _ _) as [room|]; [|exact W].
    destruct (JsMap.get _ _); [now apply JsMap.wf_set | exact W].
  - rewrite after_isRoomOwner. exact W.
  - rewrite rooms_changeRoomOwner.
    destruct (JsMap.get _ _) as [room|]; [|exact W].
    destruct (JsMap.has _ _); [now apply JsMap.wf_set | exact W].
  - rewrite rooms_cleanupEmptyRooms. now apply wf_sweep.
Qed.

Lemma wf_run cs : JsMap.wf (rooms (run cs new_manager)).
Proof.
  induction cs as [|c cs IH] using rev_ind.
  - constructor.
  - rewrite run_snoc. now apply wf_call.
Qed.

Lemma result_getRoom id s : result (getRoom id) s = Returned (JsMap.get id (rooms s)).
Proof. reflexivity. Qed.

Lemma result_count s : result count s = Returned (JsMap.size (rooms s)).
Proof. reflexivity. Qed.

Lemma result_listRooms s : result listRooms s = Returned (JsMap.values (rooms s)).
Proof. reflexivity. Qed.

Lemma result_setRoomState roomId st s :
  result (setRoomState roomId st) s = Returned (JsMap.has roomId (rooms s)).
Proof.
  unfold setRoomState, JsMap.has. run_m.
  now destruct (JsMap.get roomId (rooms s)).
Qed.

Lemma result_setRoomCycle roomId b s :
  result (setRoomCycle roomId b) s = Returned (JsMap.has roomId (rooms s)).
Proof.
  unfold setRoomCycle, JsMap.has. run_m.
  now destruct (JsMap.get roomId (rooms s)).
Qed.

Lemma result_setPlayerReady roomId userId ready s :
  result (setPlayerReady roomId userId ready) s =
  Returned match JsMap.get roomId (rooms s) with
           | Some room => JsMap.has userId (players room)
           | None => false
           end.
Proof.
  unfold setPlayerReady, JsMap.has. run_m.
  destruct (JsMap.get roomId (rooms s)) as [room|]; [|reflexivity].
  now destruct (JsMap.get userId (players room)).
Qed.

Lemma result_getRoomByUserId userId s :
  result (getRoomByUserId userId) s =
  Returned (first_room_of userId (JsMap.values (rooms s))).
Proof. reflexivity. Qed.

Lemma result_cleanupEmptyRooms s : result cleanupEmptyRooms s = Returned tt.
Proof.
  unfold cleanupEmptyRooms, result, bind, this_rooms. cbv zeta beta.
  set (ids := collect_empty _ _).
  pose proof (result_forEach_deleteRoom ids s) as R. unfold result in R.
  destruct (forEach_deleteRoom ids s) as [o s']. simpl in *. subst o.
  now destruct (Nat.ltb 0 (List.length ids)).
Qed.

Lemma first_room_of_none userId vals :
  first_room_of userId vals = None <->
  forall room, In room vals -> JsMap.has userId (players room) = false.
Proof.
  induction vals as [|r vals IH]; simpl.
  - split; [intros _ room [] | reflexivity].
  - destruct (JsMap.has userId (players r)) eqn:E.
    + split; [discriminate|]. intro A. rewrite A in E by now left. discriminate.
    + rewrite IH. split.
      * intros A room [<-|I]; auto.
      * intros A room I. apply A. now right.
Qed.

Lemma first_room_of_some userId vals room :
  first_room_of userId vals = Some room <->
  exists before rest,
    vals = before ++ room :: rest /\
    JsMap.has userId (players room) = true /\
    forall r, In r before -> JsMap.has userId (players r) = false.
Proof.
  induction vals as [|r vals IH]; simpl.
  - split; [discriminate|]. intros [[|b before] [rest [E _]]]; discriminate.
  - destruct (JsMap.has userId (players r)) eqn:E.
    + split.
      * intro S. inversion S; subst. exists [], vals. simpl. repeat split; tauto.
      * intros [[|b before] [rest [L [Hr A]]]]; simpl in L; inversion L; subst.
        -- reflexivity.
        -- rewrite A in E by now left. discriminate.
    + rewrite IH. split.
      * intros [before [rest [L [Hr A]]]]. exists (r :: before), rest. subst.
        repeat split; auto. intros r' [<-|I]; auto.
      * intros [[|b before] [rest [L [Hr A]]]]; simpl in L; inversion L; subst.
        -- congruence.
        -- exists before, rest. repeat split; auto. intros r' I. apply A. now right.
Qed.

(** ** The invariants over every sequence of calls *)

(** C2 (invariant 1). After every sequence of calls on a new manager,
    every registered room has at least one player.  In particular, when
    [removePlayerFromRoom] removes the only player a room has, the call
    returns [true], [getRoom] on that room then returns absent, and
    [count] is one less than before the call. *)
Theorem rooms_are_never_empty :
  (forall cs room,
     registered (run cs new_manager) room ->
     JsMap.size (players room) <> 0%nat)
  /\ (forall cs roomId userId room,
        JsMap.get roomId (rooms (run cs new_manager)) = Some room ->
        JsMap.has userId (players room) = true ->
        JsMap.size (players room) = 1%nat ->
        result (removePlayerFromRoom roomId userId) (run cs new_manager)
          = Returned true /\
        result (getRoom roomId)
          (after (removePlayerFromRoom roomId userId) (run cs new_manager))
          = Returned None /\
        exists n,
          result count
            (after (removePlayerFromRoom roomId userId) (run cs new_manager))
            = Returned n /\
          result count (run cs new_manager) = Returned (S n)).
Proof.
  split.
  - intros cs room R. now destruct (run_room_ok cs room R).
  - intros cs roomId userId room G Hu One.
    set (s := run cs new_manager) in *.
    assert (W : JsMap.wf (rooms s)) by apply wf_run.
    assert (E : rooms (after (removePlayerFromRoom roomId userId) s) =
                JsMap.delete roomId (JsMap.set roomId (left room userId) (rooms s))).
    { rewrite rooms_removePlayerFromRoom, G, Hu. simpl.
      pose proof (JsMap.size_delete _ _ Hu) as Sz. rewrite One in Sz.
      injection Sz as Sz. now rewrite Sz. }
    split; [|split].
    + now rewrite result_removePlayerFromRoom, G, Hu.
    + rewrite result_getRoom, E. now rewrite JsMap.get_delete_set.
    + exists (JsMap.size (rooms (after (removePlayerFromRoom roomId userId) s))).
      split; [apply result_count|]. rewrite result_count, E. f_equal.
      symmetry. apply JsMap.size_delete_set. apply JsMap.has_get. eauto.
Qed.

(** C3 (invariant 3). After every sequence of calls on a new manager in
    which each [createRoom] is given a positive [maxPlayers] or none
    (then 8), every registered room has at most [maxPlayers] players. *)
Theorem capacity_is_respected cs :
  Forall positive_capacity cs ->
  forall room,
    registered (run cs new_manager) room ->
    Z.of_nat (JsMap.size (players room)) <= maxPlayers room.
Proof.
  intros A room R.
  exact (run_invariant within_capacity positive_capacity
           initial_room_capacity room_step_capacity cs A room R).
Qed.

(** ** Errors *)

(** C4. [createRoom] throws exactly when the id is already a key of the
    registry, and then leaves the manager as it was (so the room under
    that id and [count] are the same).  No other call throws: on a
    missing room or player the other methods return [false] or absent. *)
Theorem only_createRoom_throws :
  (forall s options now,
     (exists msg, result (createRoom options now) s = Thrown msg) <->
     JsMap.has (o_id options) (rooms s) = true)
  /\ (forall s options now msg,
        result (createRoom options now) s = Thrown msg ->
        after (createRoom options now) s = s)
  /\ (forall s c,
        match c with
        | CreateRoom _ _ => True
        | _ => exists v, result (call c) s = Returned v
        end)
  /\ (forall s roomId,
        JsMap.has roomId (rooms s) = false ->
        result (getRoom roomId) s = Returned None /\
        result (deleteRoom roomId) s = Returned false /\
        (forall userId userInfo connectionId,
           result (addPlayerToRoom roomId userId userInfo connectionId) s
             = Returned false) /\
        (forall userId,
           result (removePlayerFromRoom roomId userId) s = Returned false) /\
        (forall st, result (setRoomState roomId st) s = Returned false) /\
        (forall b, result (setRoomLocked roomId b) s = Returned false) /\
        (forall b, result (setRoomCycle roomId b) s = Returned false) /\
        (forall userId ready,
           result (setPlayerReady roomId userId ready) s = Returned false) /\
        (forall userId, result (isRoomOwner roomId userId) s = Returned false) /\
        (forall newOwnerId,
           result (changeRoomOwner roomId newOwnerId) s = Returned false))
  /\ (forall s roomId room userId,
        JsMap.get roomId (rooms s) = Some room ->
        JsMap.has userId (players room) = false ->
        result (removePlayerFromRoom roomId userId) s = Returned false /\
        (forall ready,
           result (setPlayerReady roomId userId ready) s = Returned false) /\
        result (changeRoomOwner roomId userId) s = Returned false)
  /\ (forall s userId,
        (forall room, registered s room -> JsMap.has userId (players room) = false) ->
        result (getRoomByUserId userId) s = Returned None).
Proof.
  split; [|split; [|split; [|split; [|split]]]].
  - intros s options now. rewrite result_createRoom.
    destruct (JsMap.has (o_id options) (rooms s)); split; eauto; try discriminate.
    intros [msg E]. discriminate.
  - intros s options now msg. unfold createRoom. run_m.
    destruct (JsMap.has (o_id options) (rooms s)); [reflexivity | discriminate].
  - intros s c. destruct c; auto; unfold call; rewrite result_bind_ret.
    + rewrite result_getRoom. eauto.
    + rewrite result_deleteRoom. eauto.
    + rewrite result_listRooms. eauto.
    + rewrite result_count. eauto.
    + rewrite result_addPlayerToRoom. eauto.
    + rewrite result_removePlayerFromRoom. eauto.
    + rewrite result_getRoomByUserId. eauto.
    + rewrite result_setRoomState. eauto.
    + rewrite result_setRoomLocked. eauto.
    + rewrite result_setRoomCycle. eauto.
    + rewrite result_setPlayerReady. eauto.
    + rewrite result_isRoomOwner. eauto.
    + rewrite result_changeRoomOwner. eauto.
    + rewrite result_cleanupEmptyRooms. eauto.
  - intros s roomId A. pose proof (proj1 (JsMap.has_false_get _ _) A) as G.
    repeat split; intros.
    + now rewrite result_getRoom, G.
    + now rewrite result_deleteRoom, A.
    + now rewrite result_addPlayerToRoom, G.
    + now rewrite result_removePlayerFromRoom, G.
    + now rewrite result_setRoomState, A.
    + now rewrite result_setRoomLocked, A.
    + now rewrite result_setRoomCycle, A.
    + now rewrite result_setPlayerReady, G.
    + now rewrite result_isRoomOwner, G.
    + now rewrite result_changeRoomOwner, G.
  - intros s roomId room userId G A. repeat split; intros.
    + now rewrite result_removePlayerFromRoom, G, A.
    + now rewrite result_setPlayerReady, G, A.
    + now rewrite result_changeRoomOwner, G, A.
  - intros s userId A. rewrite result_getRoomByUserId. f_equal.
    apply first_room_of_none. exact A.
Qed.

(** ** Admission *)

Lemma admits_spec room :
  admits room = true <->
  Z.of_nat (JsMap.size (players room)) < maxPlayers room /\ locked room = false.
Proof.
  unfold admits. rewrite andb_true_iff, !negb_true_iff, Z.geb_leb, Z.leb_gt.
  tauto.
Qed.

Lemma admits_full room :
  maxPlayers room <= Z.of_nat (JsMap.size (players room)) -> admits room = false.
Proof.
  intro F. destruct (admits room) eqn:A; [|reflexivity].
  apply admits_spec in A. lia.
Qed.

Lemma admits_locked room : locked room = true -> admits room = false.
Proof.
  intro L. destruct (admits room) eqn:A; [|reflexivity].
  apply admits_spec in A. destruct A. congruence.
Qed.

Lemma fill_room roomId js :
  forall s room,
    JsMap.get roomId (rooms s) = Some room ->
    locked room = false ->
    NoDup (map (fun j => fst (fst j)) js) ->
    (forall j, In j js -> JsMap.has (fst (fst j)) (players room) = false) ->
    Z.of_nat (JsMap.size (players room)) + Z.of_nat (List.length js)
      <= maxPlayers room ->
    outcomes (join_calls roomId js) s
      = map (fun _ => Returned (VBoolean true)) js /\
    exists room',
      JsMap.get roomId (rooms (run (join_calls roomId js) s)) = Some room' /\
      JsMap.size (players room') = (JsMap.size (players room) + List.length js)%nat /\
      maxPlayers room' = maxPlayers room /\
      locked room' = false.
Proof.
  induction js as [|[[u i] c] js IH]; intros s room G L ND Fresh Cap.
  - simpl. split; [reflexivity|]. exists room. rewrite Nat.add_0_r. auto.
  - simpl in ND. inversion ND as [|? ? NI ND']; subst.
    change (List.length ((u, i, c) :: js)) with (S (List.length js)) in Cap.
    rewrite Nat2Z.inj_succ in Cap.
    assert (A : admits room = true) by (apply admits_spec; split; [lia | exact L]).
    assert (Hu : JsMap.has u (players room) = false)
      by exact (Fresh (u, i, c) (or_introl eq_refl)).
    set (s1 := after (call (AddPlayerToRoom roomId u i c)) s).
    assert (G1 : JsMap.get roomId (rooms s1) = Some (joined room u i c)).
    { unfold s1, call. rewrite after_bind_ret, rooms_addPlayerToRoom, G, A.
      apply JsMap.get_set_same. }
    assert (Sz : JsMap.size (players (joined room u i c)) = S (JsMap.size (players room))).
    { simpl. rewrite JsMap.size_set. now rewrite Hu. }
    destruct (IH s1 (joined room u i c) G1 L ND') as [O [room' [G' [Sz' [M' L']]]]].
    + intros j I. simpl. rewrite JsMap.has_set_other; [apply Fresh; now right|].
      intro E. apply NI. rewrite E.
      exact (in_map (fun j => fst (fst j)) _ _ I).
    + rewrite Sz. simpl maxPlayers. lia.
    + split.
      * simpl. f_equal; [|exact O].
        now rewrite result_bind_ret, result_addPlayerToRoom, G, A.
      * exists room'. simpl. fold s1. repeat split; auto.
        -- rewrite Sz', Sz. simpl. lia.
Qed.

Lemma lock_persists roomId c s :
  JsMap.wf (rooms s) ->
  keeps_lock roomId c ->
  (forall r, JsMap.get roomId (rooms s) = Some r -> locked r = true) ->
  forall r, JsMap.get roomId (rooms (after (call c) s)) = Some r -> locked r = true.
Proof.
  intros W K Lk r' G'. apply JsMap.get_In, step_rooms in G'.
  destruct G' as [I|[[r [I St]]|[o [n [E [Ek _]]]]]].
  - apply Lk. now apply JsMap.In_get.
  - assert (Lr : locked r = true) by (apply Lk; now apply JsMap.In_get).
    inversion St; subst; simpl; auto.
    simpl in K. destruct b; [reflexivity | congruence].
  - subst c. simpl in K. congruence.
Qed.

Lemma lock_persists_run roomId cs :
  forall s,
    JsMap.wf (rooms s) ->
    Forall (keeps_lock roomId) cs ->
    (forall r, JsMap.get roomId (rooms s) = Some r -> locked r = true) ->
    JsMap.wf (rooms (run cs s)) /\
    forall r, JsMap.get roomId (rooms (run cs s)) = Some r -> locked r = true.
Proof.
  induction cs as [|c cs IH]; intros s W K Lk; simpl; [auto|].
  inversion K as [|? ? Kc Kcs]; subst. apply IH.
  - now apply wf_call.
  - exact Kcs.
  - now apply lock_persists.
Qed.

(** C5. [addPlayerToRoom] returns [false] and leaves the registry as it
    is (only a warning is logged) when the room is absent, when
    [players.size >= maxPlayers], or when the room is locked; otherwise
    it returns [true] and sets the entry of [userId] to the given info
    and connection, not ready.
    Hence: distinct new players that bring an unlocked room to exactly
    [maxPlayers] are all admitted and any further call is refused with
    the registry unchanged; once [setRoomLocked roomId true] has run on
    an existing room, every [addPlayerToRoom] on it is refused with the
    registry unchanged, whatever calls come in between, as long as none
    unlocks it or creates a room under that id anew; and
    [setRoomLocked roomId false] on a room that is not full makes the
    next [addPlayerToRoom] succeed. *)
Theorem addPlayerToRoom_admission :
  (forall s roomId userId userInfo connectionId,
     JsMap.get roomId (rooms s) = None ->
     result (addPlayerToRoom roomId userId userInfo connectionId) s = Returned false /\
     rooms (after (addPlayerToRoom roomId userId userInfo connectionId) s) = rooms s)
  /\ (forall s roomId room userId userInfo connectionId,
        JsMap.get roomId (rooms s) = Some room ->
        maxPlayers room <= Z.of_nat (JsMap.size (players room)) \/ locked room = true ->
        result (addPlayerToRoom roomId userId userInfo connectionId) s = Returned false /\
        rooms (after (addPlayerToRoom roomId userId userInfo connectionId) s) = rooms s)
  /\ (forall s roomId room userId userInfo connectionId,
        JsMap.get roomId (rooms s) = Some room ->
        Z.of_nat (JsMap.size (players room)) < maxPlayers room ->
        locked room = false ->
        result (addPlayerToRoom roomId userId userInfo connectionId) s = Returned true /\
        rooms (after (addPlayerToRoom roomId userId userInfo connectionId) s) =
          JsMap.set roomId
            (with_players room
               (JsMap.set userId
                  {| user := userInfo; connectionId := connectionId; isReady := false |}
                  (players room)))
            (rooms s))
  /\ (forall s roomId room js,
        JsMap.get roomId (rooms s) = Some room ->
        locked room = false ->
        NoDup (map (fun j => fst (fst j)) js) ->
        (forall j, In j js -> JsMap.has (fst (fst j)) (players room) = false) ->
        Z.of_nat (JsMap.size (players room)) + Z.of_nat (List.length js)
          = maxPlayers room ->
        outcomes (join_calls roomId js) s
          = map (fun _ => Returned (VBoolean true)) js /\
        forall userId userInfo connectionId,
          result (addPlayerToRoom roomId userId userInfo connectionId)
            (run (join_calls roomId js) s) = Returned false /\
          rooms (after (addPlayerToRoom roomId userId userInfo connectionId)
                   (run (join_calls roomId js) s))
            = rooms (run (join_calls roomId js) s))
  /\ (forall s roomId cs userId userInfo connectionId,
        JsMap.wf (rooms s) ->
        JsMap.has roomId (rooms s) = true ->
        Forall (keeps_lock roomId) cs ->
        result (setRoomLocked roomId true) s = Returned true /\
        result (addPlayerToRoom roomId userId userInfo connectionId)
          (run cs (after (setRoomLocked roomId true) s)) = Returned false /\
        rooms (after (addPlayerToRoom roomId userId userInfo connectionId)
                 (run cs (after (setRoomLocked roomId true) s)))
          = rooms (run cs (after (setRoomLocked roomId true) s)))
  /\ (forall s roomId room userId userInfo connectionId,
        JsMap.get roomId (rooms s) = Some room ->
        Z.of_nat (JsMap.size (players room)) < maxPlayers room ->
        result (addPlayerToRoom roomId userId userInfo connectionId)
          (after (setRoomLocked roomId false) s) = Returned true).
Proof.
  assert (refused : forall s roomId userId userInfo connectionId,
    (forall r, JsMap.get roomId (rooms s) = Some r -> admits r = false) ->
    result (addPlayerToRoom roomId userId userInfo connectionId) s = Returned false /\
    rooms (after (addPlayerToRoom roomId userId userInfo connectionId) s) = rooms s).
  { intros s roomId userId userInfo connectionId A.
    rewrite result_addPlayerToRoom, rooms_addPlayerToRoom.
    destruct (JsMap.get roomId (rooms s)) as [r|]; [|auto].
    now rewrite (A r eq_refl). }
  split; [|split; [|split; [|split; [|split]]]].
  - intros s roomId userId userInfo connectionId G. apply refused.
    intros r Gr. congruence.
  - intros s roomId room userId userInfo connectionId G [F|L]; apply refused;
      intros r Gr; assert (r = room) by congruence; subst r.
    + now apply admits_full.
    + now apply admits_locked.
  - intros s roomId room userId userInfo connectionId G F L.
    assert (A : admits room = true) by (apply admits_spec; auto).
    now rewrite result_addPlayerToRoom, rooms_addPlayerToRoom, G, A.
  - intros s roomId room js G L ND Fresh Cap.
    destruct (fill_room roomId js s room G L ND Fresh) as [O [room' [G' [Sz [M' L']]]]];
      [lia|].
    split; [exact O|]. intros userId userInfo connectionId. apply refused.
    intros r Gr. assert (r = room') by congruence; subst r.
    apply admits_full. rewrite Sz, M'. lia.
  - intros s roomId cs userId userInfo connectionId W E K.
    split; [now rewrite result_setRoomLocked, E|].
    apply refused. intros r Gr. apply admits_locked.
    assert (W1 : JsMap.wf (rooms (after (setRoomLocked roomId true) s))).
    { rewrite rooms_setRoomLocked.
      destruct (JsMap.get roomId (rooms s)); [now apply JsMap.wf_set | exact W]. }
    refine (proj2 (lock_persists_run roomId cs _ W1 K _) r Gr).
    intros r0. rewrite rooms_setRoomLocked.
    destruct (JsMap.get roomId (rooms s)) as [room|] eqn:G.
    + rewrite JsMap.get_set_same. intro E0. now inversion E0.
    + apply JsMap.has_false_get in G. congruence.
  - intros s roomId room userId userInfo connectionId G F.
    rewrite result_addPlayerToRoom, rooms_setRoomLocked, G, JsMap.get_set_same.
    f_equal. apply admits_spec. auto.
Qed.

(** C10. Re-adding a player who is already a member of a full or locked
    room is refused: [addPlayerToRoom] returns [false], the registry is
    unchanged, and the member keeps the info, connection and ready flag
    it had, although overwriting its entry would not have changed the
    number of players. *)
Theorem addPlayerToRoom_member_of_closed_room
    s roomId room userId player userInfo connectionId :
  JsMap.get roomId (rooms s) = Some room ->
  JsMap.get userId (players room) = Some player ->
  maxPlayers room <= Z.of_nat (JsMap.size (players room)) \/ locked room = true ->
  result (addPlayerToRoom roomId userId userInfo connectionId) s = Returned false /\
  rooms (after (addPlayerToRoom roomId userId userInfo connectionId) s) = rooms s /\
  (exists room',
     result (getRoom roomId)
       (after (addPlayerToRoom roomId userId userInfo connectionId) s)
       = Returned (Some room') /\
     JsMap.get userId (players room') = Some player) /\
  JsMap.size
    (JsMap.set userId
       {| user := userInfo; connectionId := connectionId; isReady := false |}
       (players room))
    = JsMap.size (players room).
Proof.
  intros G Gp Closed.
  assert (A : admits room = false).
  { destruct Closed; [now apply admits_full | now apply admits_locked]. }
  assert (E : rooms (after (addPlayerToRoom roomId userId userInfo connectionId) s)
              = rooms s)
    by now rewrite rooms_addPlayerToRoom, G, A.
  repeat split.
  - now rewrite result_addPlayerToRoom, G, A.
  - exact E.
  - exists room. rewrite result_getRoom, E, G. auto.
  - rewrite JsMap.size_set.
    assert (Hu : JsMap.has userId (players room) = true)
      by (apply JsMap.has_get; eauto).
    now rewrite Hu.
Qed.

(** ** Ownership *)

(** C7. [changeRoomOwner] returns [false] and leaves the manager as it
    is when the room is absent or [newOwnerId] is not one of its
    players; for a player of an existing room it returns [true] and
    that room gets [newOwnerId] as owner, nothing else changing. *)
Theorem changeRoomOwner_members_only s roomId newOwnerId :
  (JsMap.get roomId (rooms s) = None ->
   result (changeRoomOwner roomId newOwnerId) s = Returned false /\
   after (changeRoomOwner roomId newOwnerId) s = s)
  /\ (forall room,
        JsMap.get roomId (rooms s) = Some room ->
        JsMap.has newOwnerId (players room) = false ->
        result (changeRoomOwner roomId newOwnerId) s = Returned false /\
        after (changeRoomOwner roomId newOwnerId) s = s)
  /\ (forall room,
        JsMap.get roomId (rooms s) = Some room ->
        JsMap.has newOwnerId (players room) = true ->
        result (changeRoomOwner roomId newOwnerId) s = Returned true /\
        rooms (after (changeRoomOwner roomId newOwnerId) s)
          = JsMap.set roomId (with_ownerId room newOwnerId) (rooms s) /\
        (exists room',
           result (getRoom roomId) (after (changeRoomOwner roomId newOwnerId) s)
             = Returned (Some room') /\
           ownerId room' = newOwnerId /\
           with_ownerId room' (ownerId room) = room) /\
        forall other,
          other <> roomId ->
          result (getRoom other) (after (changeRoomOwner roomId newOwnerId) s)
            = result (getRoom other) s).
Proof.
  split; [|split].
  - intro G. assert (R : result (changeRoomOwner roomId newOwnerId) s = Returned false)
      by now rewrite result_changeRoomOwner, G.
    split; [exact R | now apply changeRoomOwner_refused].
  - intros room G Hn.
    assert (R : result (changeRoomOwner roomId newOwnerId) s = Returned false)
      by now rewrite result_changeRoomOwner, G, Hn.
    split; [exact R | now apply changeRoomOwner_refused].
  - intros room G Hn.
    assert (E : rooms (after (changeRoomOwner roomId newOwnerId) s)
                = JsMap.set roomId (with_ownerId room newOwnerId) (rooms s))
      by now rewrite rooms_changeRoomOwner, G, Hn.
    repeat split.
    + now rewrite result_changeRoomOwner, G, Hn.
    + exact E.
    + exists (with_ownerId room newOwnerId).
      rewrite result_getRoom, E, JsMap.get_set_same.
      repeat split. now destruct room.
    + intros other D. rewrite !result_getRoom, E.
      now rewrite JsMap.get_set_other by congruence.
Qed.

(** ** Sweeping and searching *)

Lemma cleanupEmptyRooms_noop s :
  filter is_empty_entry (rooms s) = [] -> after cleanupEmptyRooms s = s.
Proof.
  intro E. unfold cleanupEmptyRooms, JsMap.entries, after, bind, this_rooms.
  cbv zeta beta. rewrite collect_empty_filter, E. reflexivity.
Qed.

(** C8. On a registry in which every room has a player,
    [cleanupEmptyRooms] changes nothing at all: the rooms, their order
    and the log are the same.  In general, on a registry that is a Map
    (distinct keys), it removes the rooms whose [players] map is empty
    and keeps every other room as it is, in the same order, so running
    it twice is the same as running it once. *)
Theorem cleanupEmptyRooms_removes_only_empty_rooms :
  (forall s,
     (forall room, registered s room -> JsMap.size (players room) <> 0%nat) ->
     result cleanupEmptyRooms s = Returned tt /\
     after cleanupEmptyRooms s = s)
  /\ (forall s,
        JsMap.wf (rooms s) ->
        rooms (after cleanupEmptyRooms s)
          = filter (fun e => negb (Nat.eqb (JsMap.size (players (snd e))) 0)) (rooms s) /\
        (forall id,
           result (getRoom id) (after cleanupEmptyRooms s) =
           Returned match JsMap.get id (rooms s) with
                    | Some room =>
                        if Nat.eqb (JsMap.size (players room)) 0 then None
                        else Some room
                    | None => None
                    end) /\
        after cleanupEmptyRooms (after cleanupEmptyRooms s)
          = after cleanupEmptyRooms s).
Proof.
  assert (sweep : forall s, JsMap.wf (rooms s) ->
    rooms (after cleanupEmptyRooms s)
      = filter (fun e => negb (is_empty_entry e)) (rooms s)).
  { intros s W. rewrite rooms_cleanupEmptyRooms. now apply sweep_filter. }
  split.
  - intros s NE. split; [apply result_cleanupEmptyRooms|].
    apply cleanupEmptyRooms_noop.
    destruct (filter is_empty_entry (rooms s)) as [|[k r] l] eqn:F; [reflexivity|].
    assert (I : In (k, r) (filter is_empty_entry (rooms s))) by (rewrite F; now left).
    apply filter_In in I as [I Em]. unfold is_empty_entry in Em. simpl in Em.
    apply Nat.eqb_eq in Em. exfalso. apply (NE r); [|exact Em].
    apply registered_entry. eauto.
  - intros s W. split; [exact (sweep s W)|]. split.
    + intro id. rewrite result_getRoom, (sweep s W), JsMap.get_filter by exact W.
      f_equal. destruct (JsMap.get id (rooms s)) as [room|]; [|reflexivity].
      unfold is_empty_entry. simpl.
      now destruct (Nat.eqb (JsMap.size (players room)) 0).
    + apply cleanupEmptyRooms_noop. rewrite (sweep s W).
      set (m := rooms s). clearbody m. clear.
      induction m as [|e m IH]; simpl; [reflexivity|].
      destruct (is_empty_entry e) eqn:Em; simpl; [exact IH|].
      now rewrite Em.
Qed.

(** C9. [getRoomByUserId] returns the first room, in the order of the
    registry, that has [userId] among its players, returns absent when
    no registered room has it, and leaves the manager as it is. *)
Theorem getRoomByUserId_first_match s userId :
  after (getRoomByUserId userId) s = s
  /\ (exists found, result (getRoomByUserId userId) s = Returned found)
  /\ (forall room,
        result (getRoomByUserId userId) s = Returned (Some room) <->
        exists before rest,
          JsMap.values (rooms s) = before ++ room :: rest /\
          JsMap.has userId (players room) = true /\
          forall r, In r before -> JsMap.has userId (players r) = false)
  /\ (result (getRoomByUserId userId) s = Returned None <->
      forall room, registered s room -> JsMap.has userId (players room) = false).
Proof.
  rewrite result_getRoomByUserId. split; [reflexivity|]. split; [eauto|]. split.
  - intro room. rewrite <- first_room_of_some. split; [|congruence].
    intro E. now inversion E.
  - unfold registered. rewrite <- first_room_of_none. split; [|congruence].
    intro E. now inversion E.
Qed.

(** ** Further properties of the methods *)

(** *** Deleting a room *)

(** X1. On a registry that is a Map, [deleteRoom] returns whether the
    id was a key; afterwards [getRoom] on that id is absent and every
    other id answers as before.  A present room makes [count] drop by
    one; an absent one leaves the manager as it is, log included. *)
Theorem deleteRoom_removes_that_room_only s roomId :
  JsMap.wf (rooms s) ->
  result (deleteRoom roomId) s = Returned (JsMap.has roomId (rooms s)) /\
  result (getRoom roomId) (after (deleteRoom roomId) s) = Returned None /\
  (forall other,
     other <> roomId ->
     result (getRoom other) (after (deleteRoom roomId) s)
       = result (getRoom other) s) /\
  (JsMap.has roomId (rooms s) = true ->
   exists n,
     result count (after (deleteRoom roomId) s) = Returned n /\
     result count s = Returned (S n)) /\
  (JsMap.has roomId (rooms s) = false -> after (deleteRoom roomId) s = s).
Proof.
  intro W. split; [apply result_deleteRoom|]. split; [|split; [|split]].
  - rewrite result_getRoom, rooms_deleteRoom. now rewrite JsMap.get_delete_same.
  - intros other D. rewrite !result_getRoom, rooms_deleteRoom.
    now rewrite JsMap.get_delete_other by congruence.
  - intro E. exists (JsMap.size (JsMap.delete roomId (rooms s))).
    rewrite !result_count, rooms_deleteRoom. split; [reflexivity|].
    now rewrite JsMap.size_delete.
  - intro E. unfold deleteRoom. run_m. rewrite E. simpl.
    rewrite JsMap.delete_absent by exact E. now destruct s.
Qed.

(** *** Identifiers *)

Lemma room_step_fixed c k r r' :
  room_step c k r r' ->
  id r' = id r /\ name r' = name r /\ maxPlayers r' = maxPlayers r /\
  password r' = password r /\ live r' = live r /\ createdAt r' = createdAt r.
Proof. intro St. destruct St; simpl; repeat split. Qed.

Lemma run_entry_id cs k room :
  In (k, room) (rooms (run cs new_manager)) -> id room = k.
Proof.
  revert k room. induction cs as [|c cs IH] using rev_ind; intros k room I.
  - destruct I.
  - rewrite run_snoc in I.
    destruct (step_rooms _ _ _ _ I) as [I'|[[r [I' St]]|[o [n [_ [-> ->]]]]]].
    + now apply IH.
    + destruct (room_step_fixed _ _ _ _ St) as [E _]. rewrite E. now apply IH.
    + reflexivity.
Qed.

(** X2 (invariant 4). After every sequence of calls on a new manager,
    each room is stored under its own [id], no two listed rooms share
    an [id], and [getRoom] on the [id] of a listed room returns that
    room. *)
Theorem room_ids_are_the_registry_keys cs :
  (forall k room,
     In (k, room) (JsMap.entries (rooms (run cs new_manager))) -> id room = k)
  /\ NoDup (map id (JsMap.values (rooms (run cs new_manager))))
  /\ (forall room,
        registered (run cs new_manager) room ->
        result (getRoom (id room)) (run cs new_manager) = Returned (Some room)).
Proof.
  pose proof (wf_run cs) as W.
  assert (Id : forall k room, In (k, room) (rooms (run cs new_manager)) -> id room = k)
    by (intros; now apply (run_entry_id cs)).
  split; [exact Id|]. split.
  - replace (map id (JsMap.values (rooms (run cs new_manager))))
      with (JsMap.keys (rooms (run cs new_manager))); [exact W|].
    unfold JsMap.keys, JsMap.values. rewrite map_map. apply map_ext_in.
    intros [k r] I. simpl. symmetry. now apply Id.
  - intros room R. apply registered_entry in R as [k I].
    rewrite result_getRoom. f_equal. rewrite (Id k room I).
    now apply JsMap.In_get.
Qed.

(** X3. A call never changes the [id], [name], [maxPlayers], [password],
    [live] or [createdAt] of a room that is registered under the same
    key before and after it. *)
Theorem creation_fields_are_fixed s c k r r' :
  JsMap.wf (rooms s) ->
  JsMap.get k (rooms s) = Some r ->
  JsMap.get k (rooms (after (call c) s)) = Some r' ->
  id r' = id r /\ name r' = name r /\ maxPlayers r' = maxPlayers r /\
  password r' = password r /\ live r' = live r /\ createdAt r' = createdAt r.
Proof.
  intros W G G'.
  destruct (step_rooms _ _ _ _ (JsMap.get_In _ _ _ G'))
    as [I|[[r0 [I St]]|[o [n [-> [-> _]]]]]].
  - assert (r' = r) by (apply (JsMap.In_get _ _ _ W) in I; congruence).
    subst. repeat split.
  - assert (r0 = r) by (apply (JsMap.In_get _ _ _ W) in I; congruence).
    subst. now apply (room_step_fixed c k).
  - unfold call in G'. rewrite after_bind_ret, rooms_createRoom in G'.
    assert (E : JsMap.has (o_id o) (rooms s) = true) by (apply JsMap.has_get; eauto).
    rewrite E in G'. assert (r' = r) by congruence. subst. repeat split.
Qed.

(** *** Ready flags, joining order and room flags *)

Lemma same_manager s m :
  m = rooms s -> {| rooms := m; logger := logger s |} = s.
Proof. intros ->. now destruct s. Qed.

(** X4. [setPlayerReady] on a missing room or player returns [false] and
    leaves the manager as it is, log included.  On a player of a room
    it returns [true] and sets the ready flag of that player: the
    player keeps its info and connection, the players keep their order,
    every other player, every other field of the room and every other
    room stay as they are. *)
Theorem setPlayerReady_sets_one_flag s roomId userId ready :
  (result (setPlayerReady roomId userId ready) s = Returned false ->
   after (setPlayerReady roomId userId ready) s = s)
  /\ (forall room player,
        JsMap.get roomId (rooms s) = Some room ->
        JsMap.get userId (players room) = Some player ->
        result (setPlayerReady roomId userId ready) s = Returned true /\
        exists room' player',
          result (getRoom roomId) (after (setPlayerReady roomId userId ready) s)
            = Returned (Some room') /\
          JsMap.get userId (players room') = Some player' /\
          isReady player' = ready /\
          user player' = user player /\
          connectionId player' = connectionId player /\
          JsMap.keys (players room') = JsMap.keys (players room) /\
          (forall other,
             other <> userId ->
             JsMap.get other (players room') = JsMap.get other (players room)) /\
          with_players room' (players room) = room /\
          forall otherRoom,
            otherRoom <> roomId ->
            result (getRoom otherRoom) (after (setPlayerReady roomId userId ready) s)
              = result (getRoom otherRoom) s).
Proof.
  split.
  - unfold setPlayerReady. run_m.
    destruct (JsMap.get roomId (rooms s)) as [room|]; [|reflexivity].
    destruct (JsMap.get userId (players room)); simpl; [discriminate | reflexivity].
  - intros room player G Gp.
    assert (Hu : JsMap.has userId (players room) = true)
      by (apply JsMap.has_get; eauto).
    split; [now rewrite result_setPlayerReady, G, Hu|].
    exists (with_players room
              (JsMap.set userId (with_isReady player ready) (players room))),
           (with_isReady player ready).
    assert (E : rooms (after (setPlayerReady roomId userId ready) s) =
                JsMap.set roomId
                  (with_players room
                     (JsMap.set userId (with_isReady player ready) (players room)))
                  (rooms s))
      by now rewrite rooms_setPlayerReady, G, Gp.
    rewrite !result_getRoom, E, JsMap.get_set_same. simpl.
    repeat split.
    + apply JsMap.get_set_same.
    + now apply JsMap.keys_set_present.
    + intros other D. now rewrite JsMap.get_set_other by congruence.
    + now destruct room.
    + intros otherRoom D. rewrite result_getRoom, E.
      now rewrite JsMap.get_set_other by congruence.
Qed.

(** X5. An admitted [addPlayerToRoom] keeps the joining order of the
    room: a new player goes last, a player who is already a member
    keeps its place and is overwritten with the new info, connection
    and a cleared ready flag.  Every other player, the owner and the
    other fields of the room, the other rooms and the order of the
    registry stay as they are. *)
Theorem addPlayerToRoom_keeps_join_order s roomId room userId userInfo connectionId :
  JsMap.get roomId (rooms s) = Some room ->
  Z.of_nat (JsMap.size (players room)) < maxPlayers room ->
  locked room = false ->
  exists room',
    result (getRoom roomId)
      (after (addPlayerToRoom roomId userId userInfo connectionId) s)
      = Returned (Some room') /\
    JsMap.get userId (players room')
      = Some {| user := userInfo; connectionId := connectionId; isReady := false |} /\
    (forall other,
       other <> userId ->
       JsMap.get other (players room') = JsMap.get other (players room)) /\
    (JsMap.has userId (players room) = true ->
     JsMap.keys (players room') = JsMap.keys (players room)) /\
    (JsMap.has userId (players room) = false ->
     JsMap.keys (players room') = JsMap.keys (players room) ++ [userId]) /\
    with_players room' (players room) = room /\
    (forall otherRoom,
       otherRoom <> roomId ->
       result (getRoom otherRoom)
         (after (addPlayerToRoom roomId userId userInfo connectionId) s)
         = result (getRoom otherRoom) s) /\
    JsMap.keys (rooms (after (addPlayerToRoom roomId userId userInfo connectionId) s))
      = JsMap.keys (rooms s).
Proof.
  intros G F L.
  assert (A : admits room = true) by (apply admits_spec; auto).
  assert (E : rooms (after (addPlayerToRoom roomId userId userInfo connectionId) s)
              = JsMap.set roomId (joined room userId userInfo connectionId) (rooms s))
    by now rewrite rooms_addPlayerToRoom, G, A.
  exists (joined room userId userInfo connectionId).
  rewrite !result_getRoom, E, JsMap.get_set_same. simpl. repeat split.
  - apply JsMap.get_set_same.
  - intros other D. now rewrite JsMap.get_set_other by congruence.
  - intro Hu. now apply JsMap.keys_set_present.
  - intro Hu. rewrite JsMap.set_absent by exact Hu.
    unfold JsMap.keys. now rewrite map_app.
  - now destruct room.
  - intros otherRoom D. rewrite result_getRoom, E.
    now rewrite JsMap.get_set_other by congruence.
  - apply JsMap.keys_set_present, JsMap.has_get. eauto.
Qed.

(** X6. The setters of [state], [locked] and [cycle] act on one field
    each: on an existing room each returns [true] and [getRoom] then
    shows the value written in that field and the former values in the
    other two; the last value written wins, writing the value a room
    has changes no room, setters of different fields commute, and none
    of them changes the players or the owner of the room or the order
    of the registry. *)
Theorem flag_setters_are_independent s roomId :
  (forall room b c st,
     JsMap.get roomId (rooms s) = Some room ->
     (result (setRoomLocked roomId b) s = Returned true /\
      exists room',
        result (getRoom roomId) (after (setRoomLocked roomId b) s)
          = Returned (Some room') /\
        locked room' = b /\ cycle room' = cycle room /\ state room' = state room)
     /\ (result (setRoomCycle roomId c) s = Returned true /\
         exists room',
           result (getRoom roomId) (after (setRoomCycle roomId c) s)
             = Returned (Some room') /\
           cycle room' = c /\ locked room' = locked room /\ state room' = state room)
     /\ (result (setRoomState roomId st) s = Returned true /\
         exists room',
           result (getRoom roomId) (after (setRoomState roomId st) s)
             = Returned (Some room') /\
           state room' = st /\ locked room' = locked room /\ cycle room' = cycle room))
  /\ (forall b1 b2,
     rooms (after (setRoomLocked roomId b2) (after (setRoomLocked roomId b1) s))
     = rooms (after (setRoomLocked roomId b2) s))
  /\ (forall c1 c2,
        rooms (after (setRoomCycle roomId c2) (after (setRoomCycle roomId c1) s))
        = rooms (after (setRoomCycle roomId c2) s))
  /\ (forall st1 st2,
        rooms (after (setRoomState roomId st2) (after (setRoomState roomId st1) s))
        = rooms (after (setRoomState roomId st2) s))
  /\ (forall b c,
        rooms (after (setRoomCycle roomId c) (after (setRoomLocked roomId b) s))
        = rooms (after (setRoomLocked roomId b) (after (setRoomCycle roomId c) s)))
  /\ (forall b st,
        rooms (after (setRoomState roomId st) (after (setRoomLocked roomId b) s))
        = rooms (after (setRoomLocked roomId b) (after (setRoomState roomId st) s)))
  /\ (forall c st,
        rooms (after (setRoomState roomId st) (after (setRoomCycle roomId c) s))
        = rooms (after (setRoomCycle roomId c) (after (setRoomState roomId st) s)))
  /\ (forall room,
        JsMap.get roomId (rooms s) = Some room ->
        rooms (after (setRoomLocked roomId (locked room)) s) = rooms s /\
        rooms (after (setRoomCycle roomId (cycle room)) s) = rooms s /\
        rooms (after (setRoomState roomId (state room)) s) = rooms s)
  /\ (forall room room' b c st,
        JsMap.get roomId (rooms s) = Some room ->
        JsMap.get roomId (rooms (after (setRoomLocked roomId b) s)) = Some room' \/
        JsMap.get roomId (rooms (after (setRoomCycle roomId c) s)) = Some room' \/
        JsMap.get roomId (rooms (after (setRoomState roomId st) s)) = Some room' ->
        players room' = players room /\ ownerId room' = ownerId room)
  /\ (forall b c st,
        JsMap.keys (rooms (after (setRoomLocked roomId b) s)) = JsMap.keys (rooms s) /\
        JsMap.keys (rooms (after (setRoomCycle roomId c) s)) = JsMap.keys (rooms s) /\
        JsMap.keys (rooms (after (setRoomState roomId st) s)) = JsMap.keys (rooms s)).
Proof.
  destruct (JsMap.get roomId (rooms s)) as [r0|] eqn:G.
  - assert (L : forall b s1 r1,
              rooms s1 = JsMap.set roomId r1 (rooms s) ->
              rooms (after (setRoomLocked roomId b) s1)
              = JsMap.set roomId (with_locked r1 b) (rooms s)).
    { intros b s1 r1 E. rewrite rooms_setRoomLocked, E, JsMap.get_set_same.
      apply JsMap.set_set. }
    assert (C : forall c s1 r1,
              rooms s1 = JsMap.set roomId r1 (rooms s) ->
              rooms (after (setRoomCycle roomId c) s1)
              = JsMap.set roomId (with_cycle r1 c) (rooms s)).
    { intros c s1 r1 E. rewrite rooms_setRoomCycle, E, JsMap.get_set_same.
      apply JsMap.set_set. }
    assert (Sv : forall st s1 r1,
              rooms s1 = JsMap.set roomId r1 (rooms s) ->
              rooms (after (setRoomState roomId st) s1)
              = JsMap.set roomId (with_state r1 st) (rooms s)).
    { intros st s1 r1 E. rewrite rooms_setRoomState, E, JsMap.get_set_same.
      apply JsMap.set_set. }
    assert (E0 : rooms s = JsMap.set roomId r0 (rooms s))
      by (symmetry; now apply JsMap.set_get_same).
    assert (Hk : JsMap.has roomId (rooms s) = true) by (apply JsMap.has_get; eauto).
    split; [|split; [|split; [|split; [|split; [|split; [|split; [|split; [|split]]]]]]]].
    + intros room b c st E. inversion E; subst room.
      rewrite result_setRoomLocked, result_setRoomCycle, result_setRoomState, Hk.
      rewrite !result_getRoom, (L b s r0 E0), (C c s r0 E0), (Sv st s r0 E0).
      rewrite !JsMap.get_set_same.
      split; [|split]; (split; [reflexivity|]).
      * exists (with_locked r0 b). auto.
      * exists (with_cycle r0 c). auto.
      * exists (with_state r0 st). auto.
    + intros b1 b2. now rewrite (L b2 _ _ (L b1 s r0 E0)), (L b2 s r0 E0).
    + intros c1 c2. now rewrite (C c2 _ _ (C c1 s r0 E0)), (C c2 s r0 E0).
    + intros st1 st2. now rewrite (Sv st2 _ _ (Sv st1 s r0 E0)), (Sv st2 s r0 E0).
    + intros b c. now rewrite (C c _ _ (L b s r0 E0)), (L b _ _ (C c s r0 E0)).
    + intros b st. now rewrite (Sv st _ _ (L b s r0 E0)), (L b _ _ (Sv st s r0 E0)).
    + intros c st. now rewrite (Sv st _ _ (C c s r0 E0)), (C c _ _ (Sv st s r0 E0)).
    + intros room E. inversion E; subst room.
      rewrite (L _ s r0 E0), (C _ s r0 E0), (Sv _ s r0 E0).
      repeat split; apply JsMap.set_get_same; rewrite G; now destruct r0.
    + intros room room' b c st E D. inversion E; subst room.
      rewrite (L b s r0 E0), (C c s r0 E0), (Sv st s r0 E0) in D.
      rewrite !JsMap.get_set_same in D.
      destruct D as [D|[D|D]]; inversion D; subst room'; split; reflexivity.
    + intros b c st. rewrite (L b s r0 E0), (C c s r0 E0), (Sv st s r0 E0).
      repeat split; now apply JsMap.keys_set_present.
  - assert (L : forall b s1, rooms s1 = rooms s ->
              rooms (after (setRoomLocked roomId b) s1) = rooms s)
      by (intros b s1 E; now rewrite rooms_setRoomLocked, E, G).
    assert (C : forall c s1, rooms s1 = rooms s ->
              rooms (after (setRoomCycle roomId c) s1) = rooms s)
      by (intros c s1 E; now rewrite rooms_setRoomCycle, E, G).
    assert (Sv : forall st s1, rooms s1 = rooms s ->
              rooms (after (setRoomState roomId st) s1) = rooms s)
      by (intros st s1 E; now rewrite rooms_setRoomState, E, G).
    split; [|split; [|split; [|split; [|split; [|split; [|split; [|split; [|split]]]]]]]].
    + intros room b c st E. discriminate.
    + intros b1 b2. now rewrite (L b2 _ (L b1 s eq_refl)), (L b2 s eq_refl).
    + intros c1 c2. now rewrite (C c2 _ (C c1 s eq_refl)), (C c2 s eq_refl).
    + intros st1 st2. now rewrite (Sv st2 _ (Sv st1 s eq_refl)), (Sv st2 s eq_refl).
    + intros b c. now rewrite (C c _ (L b s eq_refl)), (L b _ (C c s eq_refl)).
    + intros b st. now rewrite (Sv st _ (L b s eq_refl)), (L b _ (Sv st s eq_refl)).
    + intros c st. now rewrite (Sv st _ (C c s eq_refl)), (C c _ (Sv st s eq_refl)).
    + intros room E. discriminate.
    + intros room room' b c st E. discriminate.
    + intros b c st.
      now rewrite (L b s eq_refl), (C c s eq_refl), (Sv st s eq_refl).
Qed.

(** *** Round trips *)

(** X7. [createRoom] under an id the registry does not hold returns the
    new room, which [listRooms] then shows last, after the rooms it
    showed before; the room has its owner as only player, and
    [isRoomOwner] holds of that owner exactly when the owner is not
    NaN, which [===] tells apart from itself.  A [deleteRoom] on the same id
    right after returns [true] and gives back the registry [createRoom]
    started from. *)
Theorem createRoom_appends_and_deleteRoom_undoes s options now :
  JsMap.has (o_id options) (rooms s) = false ->
  exists room,
    result (createRoom options now) s = Returned room /\
    result listRooms (after (createRoom options now) s)
      = Returned (JsMap.values (rooms s) ++ [room]) /\
    JsMap.keys (players room) = [o_ownerId options] /\
    (result (isRoomOwner (o_id options) (o_ownerId options))
       (after (createRoom options now) s) = Returned true
     <-> o_ownerId options <> NaN) /\
    result (deleteRoom (o_id options)) (after (createRoom options now) s)
      = Returned true /\
    rooms (after (deleteRoom (o_id options)) (after (createRoom options now) s))
      = rooms s.
Proof.
  intro Fresh. exists (initial_room options now).
  assert (E : rooms (after (createRoom options now) s)
              = rooms s ++ [(o_id options, initial_room options now)]).
  { rewrite rooms_createRoom, Fresh. now apply JsMap.set_absent. }
  assert (G : JsMap.get (o_id options) (rooms (after (createRoom options now) s))
              = Some (initial_room options now)).
  { rewrite rooms_createRoom, Fresh. apply JsMap.get_set_same. }
  split; [|split; [|split; [|split; [|split]]]].
  - now rewrite result_createRoom, Fresh.
  - rewrite result_listRooms, E. unfold JsMap.values. now rewrite map_app.
  - reflexivity.
  - rewrite result_isRoomOwner, G. simpl. split.
    + intro R. inversion R as [R']. now apply strict_eq_true in R'.
    + intro Nn. now rewrite strict_eq_refl.
  - rewrite result_deleteRoom. f_equal. apply JsMap.has_get. eauto.
  - rewrite rooms_deleteRoom, rooms_createRoom, Fresh.
    now apply JsMap.delete_set_absent.
Qed.

Lemma left_joined room userId userInfo connectionId :
  JsMap.has userId (players room) = false ->
  left (joined room userId userInfo connectionId) userId = room.
Proof.
  intro Hu. unfold left, joined, with_players. simpl.
  rewrite JsMap.delete_set_absent by exact Hu. now destruct room.
Qed.

(** X8. A player who joins a room and is removed right away leaves the
    registry as it was before joining: for a room that admits players
    and holds its owner, and a player who was not a member,
    [addPlayerToRoom] followed by [removePlayerFromRoom] returns [true]
    and restores every room, order included. *)
Theorem addPlayerToRoom_then_removePlayerFromRoom
    s roomId room userId userInfo connectionId :
  JsMap.get roomId (rooms s) = Some room ->
  Z.of_nat (JsMap.size (players room)) < maxPlayers room ->
  locked room = false ->
  JsMap.has userId (players room) = false ->
  JsMap.has (ownerId room) (players room) = true ->
  result (removePlayerFromRoom roomId userId)
    (after (addPlayerToRoom roomId userId userInfo connectionId) s)
    = Returned true /\
  rooms (after (removePlayerFromRoom roomId userId)
           (after (addPlayerToRoom roomId userId userInfo connectionId) s))
    = rooms s.
Proof.
  intros G F L Hu Ho.
  assert (A : admits room = true) by (apply admits_spec; auto).
  set (s1 := after (addPlayerToRoom roomId userId userInfo connectionId) s).
  assert (E : rooms s1
              = JsMap.set roomId (joined room userId userInfo connectionId) (rooms s))
    by (unfold s1; now rewrite rooms_addPlayerToRoom, G, A).
  assert (G1 : JsMap.get roomId (rooms s1)
               = Some (joined room userId userInfo connectionId))
    by (rewrite E; apply JsMap.get_set_same).
  assert (H1 : JsMap.has userId (players (joined room userId userInfo connectionId))
               = true) by apply JsMap.has_set_same.
  split; [now rewrite result_removePlayerFromRoom, G1, H1|].
  rewrite rooms_removePlayerFromRoom, G1, H1, left_joined by exact Hu.
  cbn [negb].
  assert (N : JsMap.size (players room) <> 0%nat).
  { intro Z0. apply JsMap.size_0_empty in Z0. rewrite Z0 in Ho. discriminate. }
  destruct (Nat.eqb_spec (JsMap.size (players room)) 0) as [Z0|_]; [contradiction|].
  assert (D : ownerId (joined room userId userInfo connectionId) <> userId).
  { simpl. intro Eo. rewrite Eo in Ho. congruence. }
  rewrite (strict_eq_neq _ _ D).
  rewrite E, JsMap.set_set. now apply JsMap.set_get_same.
Qed.

(** *** Removing a player who is not the owner *)

(** X9. [removePlayerFromRoom] that returns [false] leaves the manager as
    it is, log included.  Removing a member other than the owner from a
    room that holds its owner returns [true] and takes exactly that
    player out: the remaining players keep their entries and their
    order, the owner and the other fields of the room stay, and so does
    every other room. *)
Theorem removePlayerFromRoom_of_other_member s roomId userId :
  (result (removePlayerFromRoom roomId userId) s = Returned false ->
   after (removePlayerFromRoom roomId userId) s = s)
  /\ (forall room,
        JsMap.get roomId (rooms s) = Some room ->
        JsMap.wf (players room) ->
        JsMap.has userId (players room) = true ->
        JsMap.has (ownerId room) (players room) = true ->
        ownerId room <> userId ->
        result (removePlayerFromRoom roomId userId) s = Returned true /\
        exists room',
          result (getRoom roomId) (after (removePlayerFromRoom roomId userId) s)
            = Returned (Some room') /\
          JsMap.has userId (players room') = false /\
          (forall other,
             other <> userId ->
             JsMap.get other (players room') = JsMap.get other (players room)) /\
          JsMap.keys (players room')
            = filter (fun k => negb (same_value_zero userId k))
                (JsMap.keys (players room)) /\
          with_players room' (players room) = room /\
          forall otherRoom,
            otherRoom <> roomId ->
            result (getRoom otherRoom) (after (removePlayerFromRoom roomId userId) s)
              = result (getRoom otherRoom) s).
Proof.
  split.
  - rewrite result_removePlayerFromRoom. intro R.
    unfold removePlayerFromRoom. run_m.
    destruct (JsMap.get roomId (rooms s)) as [room|] eqn:G; [|reflexivity].
    inversion R as [Hu]. rewrite Hu. simpl. apply same_manager.
    rewrite JsMap.delete_absent by exact Hu.
    apply JsMap.set_get_same. rewrite G. now destruct room.
  - intros room G W Hu Ho D.
    split; [now rewrite result_removePlayerFromRoom, G, Hu|].
    assert (Ho' : JsMap.has (ownerId room) (JsMap.delete userId (players room)) = true)
      by now rewrite JsMap.has_delete_other by congruence.
    assert (E : rooms (after (removePlayerFromRoom roomId userId) s)
                = JsMap.set roomId (left room userId) (rooms s)).
    { rewrite rooms_removePlayerFromRoom, G, Hu. cbn [negb].
      destruct (Nat.eqb_spec (JsMap.size (players (left room userId))) 0) as [Z0|_].
      - apply JsMap.size_0_empty in Z0. simpl in Z0. rewrite Z0 in Ho'. discriminate.
      - now rewrite (strict_eq_neq _ _ D). }
    exists (left room userId).
    rewrite !result_getRoom, E, JsMap.get_set_same. simpl. repeat split.
    + now apply JsMap.has_delete_same.
    + intros other Do. now rewrite JsMap.get_delete_other by congruence.
    + exact (JsMap.keys_delete userId (players room) W).
    + now destruct room.
    + intros otherRoom Dr. rewrite result_getRoom, E.
      now rewrite JsMap.get_set_other by congruence.
Qed.

(** *** The sweep after the manager's own calls *)

Lemma no_empty_entry s :
  (forall room, registered s room -> JsMap.size (players room) <> 0%nat) ->
  filter is_empty_entry (rooms s) = [].
Proof.
  intro NE. destruct (filter is_empty_entry (rooms s)) as [|[k r] l] eqn:F;
    [reflexivity|].
  assert (I : In (k, r) (filter is_empty_entry (rooms s))) by (rewrite F; now left).
  apply filter_In in I as [I Em]. unfold is_empty_entry in Em. simpl in Em.
  apply Nat.eqb_eq in Em. exfalso. apply (NE r); [|exact Em].
  apply registered_entry. eauto.
Qed.

(** X10. After any sequence of calls on a new manager there is nothing
    for [cleanupEmptyRooms] to sweep: it leaves the manager as it is,
    log included, so a [cleanupEmptyRooms] call may be dropped from any
    such sequence without changing what the sequence leads to. *)
Theorem cleanupEmptyRooms_is_redundant cs :
  after cleanupEmptyRooms (run cs new_manager) = run cs new_manager
  /\ forall cs', run (cs ++ CleanupEmptyRooms :: cs') new_manager
                 = run (cs ++ cs') new_manager.
Proof.
  assert (E : after cleanupEmptyRooms (run cs new_manager) = run cs new_manager).
  { apply cleanupEmptyRooms_noop, no_empty_entry.
    intros room R. now destruct (run_room_ok cs room R). }
  split; [exact E|]. intro cs'. unfold run. rewrite !fold_left_app. simpl.
  f_equal. fold (run cs new_manager). unfold call.
  now rewrite after_bind_ret.
Qed.

(** *** The log and the number of rooms *)

Lemma reported_total_snoc l e :
  reported_total (l ++ [e]) =
  match total_of e with Some n => n | None => reported_total l end.
Proof. unfold reported_total. now rewrite fold_left_app. Qed.

Lemma size_set_present {V} (k : string) (v v0 : V) (m : JsMap.t string V) :
  JsMap.get k m = Some v0 -> JsMap.size (JsMap.set k v m) = JsMap.size m.
Proof.
  intro G. rewrite JsMap.size_set.
  assert (E : JsMap.has k m = true) by (apply JsMap.has_get; eauto).
  now rewrite E.
Qed.

Lemma log_agrees_createRoom options now s :
  log_agrees s -> log_agrees (after (createRoom options now) s).
Proof.
  unfold log_agrees, createRoom. run_m.
  destruct (JsMap.has (o_id options) (rooms s)); simpl; [auto|].
  intros _. now rewrite reported_total_snoc.
Qed.

Lemma log_agrees_deleteRoom id s :
  log_agrees s -> log_agrees (after (deleteRoom id) s).
Proof.
  unfold log_agrees, deleteRoom. run_m.
  destruct (JsMap.has id (rooms s)) eqn:E; simpl.
  - intros _. now rewrite reported_total_snoc.
  - now rewrite JsMap.delete_absent.
Qed.

Lemma log_agrees_addPlayerToRoom roomId userId userInfo connectionId s :
  log_agrees s ->
  log_agrees (after (addPlayerToRoom roomId userId userInfo connectionId) s).
Proof.
  unfold log_agrees, addPlayerToRoom. run_m.
  destruct (JsMap.get roomId (rooms s)) as [room|] eqn:G; simpl.
  - destruct (_ >=? _); simpl; [now rewrite reported_total_snoc|].
    destruct (locked room); simpl; rewrite reported_total_snoc; simpl; [auto|].
    now rewrite (size_set_present _ _ _ _ G).
  - now rewrite reported_total_snoc.
Qed.

Lemma log_agrees_changeRoomOwner roomId newOwnerId s :
  log_agrees s -> log_agrees (after (changeRoomOwner roomId newOwnerId) s).
Proof.
  unfold log_agrees, changeRoomOwner. run_m.
  destruct (JsMap.get roomId (rooms s)) as [room|] eqn:G; simpl; [|auto].
  destruct (JsMap.has newOwnerId (players room)); simpl; [|auto].
  rewrite reported_total_snoc. simpl. now rewrite (size_set_present _ _ _ _ G).
Qed.

Lemma log_agrees_removePlayerFromRoom roomId userId s :
  log_agrees s -> log_agrees (after (removePlayerFromRoom roomId userId) s).
Proof.
  intro A. unfold removePlayerFromRoom, after, bind, this_rooms. cbv beta iota.
  destruct (JsMap.get roomId (rooms s)) as [room|] eqn:G; [|exact A].
  cbv zeta. unfold store, update_rooms. cbv beta iota.
  set (s1 := {| rooms := JsMap.set roomId _ (rooms s); logger := logger s |}).
  assert (A1 : log_agrees s1).
  { unfold log_agrees, s1. simpl. now rewrite (size_set_present _ _ _ _ G). }
  destruct (JsMap.has userId (players room)); [|exact A1].
  unfold log at 1. cbv beta iota.
  set (s2 := {| rooms := rooms s1; logger := logger s1 ++ _ |}).
  assert (A2 : log_agrees s2).
  { unfold log_agrees, s2. simpl. rewrite reported_total_snoc. exact A1. }
  clearbody s2. clear A A1 s1 G.
  destruct (Nat.eqb _ 0).
  - pose proof (log_agrees_deleteRoom roomId s2 A2) as D. unfold after in D.
    unfold bind. destruct (deleteRoom roomId s2) as [[b|msg] s3]; exact D.
  - destruct (strict_eq _ userId); [|exact A2].
    destruct (JsMap.keys _) as [|newOwner rest]; [exact A2|].
    pose proof (log_agrees_changeRoomOwner roomId newOwner s2 A2) as D.
    unfold after in D.
    unfold bind. destruct (changeRoomOwner roomId newOwner s2) as [[b|msg] s3]; exact D.
Qed.

Lemma log_agrees_setRoomState roomId st s :
  log_agrees s -> log_agrees (after (setRoomState roomId st) s).
Proof.
  unfold log_agrees, setRoomState. run_m.
  destruct (JsMap.get roomId (rooms s)) as [room|] eqn:G; simpl; [|auto].
  rewrite reported_total_snoc. simpl. now rewrite (size_set_present _ _ _ _ G).
Qed.

Lemma log_agrees_setRoomLocked roomId b s :
  log_agrees s -> log_agrees (after (setRoomLocked roomId b) s).
Proof.
  unfold log_agrees, setRoomLocked. run_m.
  destruct (JsMap.get roomId (rooms s)) as [room|] eqn:G; simpl; [|auto].
  rewrite reported_total_snoc. simpl. now rewrite (size_set_present _ _ _ _ G).
Qed.

Lemma log_agrees_setRoomCycle roomId b s :
  log_agrees s -> log_agrees (after (setRoomCycle roomId b) s).
Proof.
  unfold log_agrees, setRoomCycle. run_m.
  destruct (JsMap.get roomId (rooms s)) as [room|] eqn:G; simpl; [|auto].
  rewrite reported_total_snoc. simpl. now rewrite (size_set_present _ _ _ _ G).
Qed.

Lemma log_agrees_setPlayerReady roomId userId ready s :
  log_agrees s -> log_agrees (after (setPlayerReady roomId userId ready) s).
Proof.
  unfold log_agrees, setPlayerReady. run_m.
  destruct (JsMap.get roomId (rooms s)) as [room|] eqn:G; simpl; [|auto].
  destruct (JsMap.get userId (players room)); simpl; [|auto].
  rewrite reported_total_snoc. simpl. now rewrite (size_set_present _ _ _ _ G).
Qed.

Lemma log_agrees_forEach_deleteRoom ids s :
  log_agrees s -> log_agrees (after (forEach_deleteRoom ids) s).
Proof.
  revert s. induction ids as [|i ids IH]; intros s A; [exact A|].
  simpl. unfold after, bind.
  pose proof (log_agrees_deleteRoom i s A) as D. unfold after in D.
  pose proof (result_deleteRoom i s) as R. unfold result in R.
  destruct (deleteRoom i s) as [o s1]. simpl in D, R. subst o.
  now apply IH.
Qed.

Lemma log_agrees_cleanupEmptyRooms s :
  log_agrees s -> log_agrees (after cleanupEmptyRooms s).
Proof.
  intro A. unfold cleanupEmptyRooms, after, bind, this_rooms. cbv zeta beta iota.
  set (ids := collect_empty _ _).
  pose proof (log_agrees_forEach_deleteRoom ids s A) as D. unfold after in D.
  pose proof (result_forEach_deleteRoom ids s) as R. unfold result in R.
  destruct (forEach_deleteRoom ids s) as [o s1]. simpl in D, R. subst o.
  destruct (Nat.ltb 0 (List.length ids)); [|exact D].
  unfold log_agrees, log. simpl. rewrite reported_total_snoc. exact D.
Qed.

(** X11. The log keeps count of the rooms: every call that changes the
    number of rooms logs the resulting [totalRooms], and no other entry
    reports one.  So if the latest reported [totalRooms] is what
    [count] returns, it still is after any call; after any sequence of
    calls on a new manager the two agree. *)
Theorem log_reports_the_number_of_rooms :
  (forall s c, log_agrees s -> log_agrees (after (call c) s))
  /\ (forall cs n,
        result count (run cs new_manager) = Returned n ->
        reported_total (logger (run cs new_manager)) = Z.of_nat n).
Proof.
  assert (Step : forall s c, log_agrees s -> log_agrees (after (call c) s)).
  { intros s c A. destruct c; unfold call; rewrite after_bind_ret;
      [ now apply log_agrees_createRoom | exact A | now apply log_agrees_deleteRoom
      | exact A | exact A | now apply log_agrees_addPlayerToRoom
      | now apply log_agrees_removePlayerFromRoom | exact A
      | now apply log_agrees_setRoomState | now apply log_agrees_setRoomLocked
      | now apply log_agrees_setRoomCycle | now apply log_agrees_setPlayerReady
      | now rewrite after_isRoomOwner | now apply log_agrees_changeRoomOwner
      | now apply log_agrees_cleanupEmptyRooms ]. }
  split; [exact Step|].
  intros cs n R. rewrite result_count in R. inversion R; subst n. clear R.
  change (log_agrees (run cs new_manager)).
  induction cs as [|c cs IH] using rev_ind; [reflexivity|].
  rewrite run_snoc. now apply Step.
Qed.

(** *** Looking a player up after joining and leaving *)

(** X12. For a player who is in no other room of a registry that is a
    Map: after an [addPlayerToRoom] that returned [true],
    [getRoomByUserId] returns the room joined, as [getRoom] returns it;
    after [removePlayerFromRoom] on that room, [getRoomByUserId] returns
    absent. *)
Theorem getRoomByUserId_follows_membership s roomId userId :
  JsMap.wf (rooms s) ->
  (forall k r,
     In (k, r) (rooms s) -> k <> roomId -> JsMap.has userId (players r) = false) ->
  (forall userInfo connectionId,
     result (addPlayerToRoom roomId userId userInfo connectionId) s = Returned true ->
     exists room',
       result (getRoom roomId)
         (after (addPlayerToRoom roomId userId userInfo connectionId) s)
         = Returned (Some room') /\
       result (getRoomByUserId userId)
         (after (addPlayerToRoom roomId userId userInfo connectionId) s)
         = Returned (Some room'))
  /\ ((forall room, JsMap.get roomId (rooms s) = Some room -> JsMap.wf (players room)) ->
      result (getRoomByUserId userId) (after (removePlayerFromRoom roomId userId) s)
        = Returned None).
Proof.
  intros W Else. split.
  - intros userInfo connectionId R.
    rewrite result_addPlayerToRoom in R.
    destruct (JsMap.get roomId (rooms s)) as [room|] eqn:G; [|discriminate].
    inversion R as [A]. clear R.
    exists (joined room userId userInfo connectionId).
    rewrite result_getRoom, result_getRoomByUserId, rooms_addPlayerToRoom, G, A.
    split; [now rewrite JsMap.get_set_same|]. f_equal.
    destruct (JsMap.set_split roomId (joined room userId userInfo connectionId)
                room (rooms s) G) as [m1 [m2 [E1 E2]]].
    apply first_room_of_some.
    exists (JsMap.values m1), (JsMap.values m2). split; [|split].
    + rewrite E2. unfold JsMap.values. now rewrite map_app.
    + apply JsMap.has_set_same.
    + intros r I. unfold JsMap.values in I. apply in_map_iff in I as [[k r0] [E I]].
      simpl in E. subst r0. apply (Else k).
      * rewrite E1. apply in_or_app. now left.
      * intros ->. unfold JsMap.wf, JsMap.keys in W. rewrite E1, map_app in W.
        simpl in W. apply NoDup_remove_2 in W. apply W, in_or_app. left.
        change roomId with (fst (roomId, r)). now apply in_map.
  - intro Wp. rewrite result_getRoomByUserId. f_equal.
    apply first_room_of_none. intros r' R. apply registered_entry in R as [k I].
    rewrite rooms_removePlayerFromRoom in I.
    destruct (JsMap.get roomId (rooms s)) as [room|] eqn:G.
    2:{ apply (Else k r' I). intros ->. apply (JsMap.In_get _ _ _ W) in I.
        congruence. }
    assert (Gone : JsMap.has userId (JsMap.delete userId (players room)) = false)
      by (apply JsMap.has_delete_same; now apply Wp).
    assert (Same : forall v,
      In (k, r') (JsMap.set roomId v (rooms s)) ->
      JsMap.has userId (players v) = false ->
      JsMap.has userId (players r') = false).
    { intros v Iv Hv. apply (JsMap.In_set_wf _ _ _ _ _ W) in Iv as [[_ ->]|[N Iv]];
        [exact Hv | now apply (Else k)]. }
    destruct (JsMap.has userId (players room)) eqn:Hu; cbn [negb] in I.
    + destruct (Nat.eqb _ 0).
      * apply (JsMap.In_delete_wf _ _ _ _ (JsMap.wf_set _ _ _ W)) in I as [N I].
        apply (JsMap.In_set_wf _ _ _ _ _ W) in I as [[E _]|[_ I]]; [contradiction|].
        now apply (Else k).
      * destruct (strict_eq _ userId); [|now apply (Same _ I)].
        destruct (JsMap.keys _); now apply (Same _ I).
    + destruct (string_dec k roomId) as [->|N]; [|now apply (Else k)].
      apply (JsMap.In_get _ _ _ W) in I. congruence.
Qed.

(** *** The order of the registry *)

Lemma sweep_survive ids (m : JsMap.t string Room) :
  JsMap.wf m ->
  JsMap.keys (fold_left (fun m id => JsMap.delete id m) ids m)
  = filter (fun a => JsMap.has a (fold_left (fun m id => JsMap.delete id m) ids m))
      (JsMap.keys m)
  /\ forall a,
       JsMap.has a (fold_left (fun m id => JsMap.delete id m) ids m) = true ->
       JsMap.has a m = true.
Proof.
  revert m. induction ids as [|i ids IH]; intros m W; simpl.
  - split; [now apply JsMap.keys_same_survive | auto].
  - destruct (IH (JsMap.delete i m) (JsMap.wf_delete i m W)) as [E Sub]. split.
    + eapply JsMap.keys_survive_trans; [now apply JsMap.keys_delete_survive | exact E | exact Sub].
    + intros a Ha. eapply JsMap.has_delete_has. apply Sub. exact Ha.
Qed.

(** X13. No call reorders the registry.  On a registry that is a Map, a
    [createRoom] that goes through puts its id last, after the ids that
    were there, and one that throws leaves the ids as they were; after
    any other call the ids are those that were there and still are, in
    the order they had. *)
Theorem calls_keep_the_registry_order s c :
  JsMap.wf (rooms s) ->
  match c with
  | CreateRoom options _ =>
      if JsMap.has (o_id options) (rooms s)
      then JsMap.keys (rooms (after (call c) s)) = JsMap.keys (rooms s)
      else JsMap.keys (rooms (after (call c) s))
           = JsMap.keys (rooms s) ++ [o_id options]
  | _ =>
      JsMap.keys (rooms (after (call c) s))
      = filter (fun k => JsMap.has k (rooms (after (call c) s)))
          (JsMap.keys (rooms s))
  end.
Proof.
  intro W.
  assert (same : forall m', JsMap.keys m' = JsMap.keys (rooms s) ->
            JsMap.keys m' = filter (fun k => JsMap.has k m') (JsMap.keys (rooms s)))
    by (intros; now apply JsMap.keys_same_survive).
  assert (upd : forall roomId room new,
            JsMap.get roomId (rooms s) = Some room ->
            JsMap.keys (JsMap.set roomId new (rooms s)) = JsMap.keys (rooms s)).
  { intros roomId room new G. apply JsMap.keys_set_present, JsMap.has_get. eauto. }
  destruct c; unfold call; rewrite after_bind_ret.
  - rewrite rooms_createRoom.
    destruct (JsMap.has (o_id options) (rooms s)) eqn:E.
    + reflexivity.
    + rewrite JsMap.set_absent by exact E. unfold JsMap.keys. now rewrite map_app.
  - now apply same.
  - rewrite rooms_deleteRoom. now apply JsMap.keys_delete_survive.
  - now apply same.
  - now apply same.
  - rewrite rooms_addPlayerToRoom.
    destruct (JsMap.get roomId (rooms s)) as [room|] eqn:G; [|now apply same].
    destruct (admits room); apply same; [eapply upd; eauto | reflexivity].
  - rewrite rooms_removePlayerFromRoom.
    destruct (JsMap.get roomId (rooms s)) as [room|] eqn:G; [|now apply same].
    destruct (negb _); [now apply same|].
    destruct (Nat.eqb _ _).
    + rewrite JsMap.delete_set_any by (apply JsMap.has_get; eauto).
      now apply JsMap.keys_delete_survive.
    + destruct (strict_eq _ _); [|apply same; eapply upd; eauto].
      destruct (JsMap.keys (players (left room userId)));
        apply same; eapply upd; eauto.
  - now apply same.
  - rewrite rooms_setRoomState.
    destruct (JsMap.get roomId (rooms s)) eqn:G; apply same;
      [eapply upd; eauto | reflexivity].
  - rewrite rooms_setRoomLocked.
    destruct (JsMap.get roomId (rooms s)) eqn:G; apply same;
      [eapply upd; eauto | reflexivity].
  - rewrite rooms_setRoomCycle.
    destruct (JsMap.get roomId (rooms s)) eqn:G; apply same;
      [eapply upd; eauto | reflexivity].
  - rewrite rooms_setPlayerReady.
    destruct (JsMap.get roomId (rooms s)) as [room|] eqn:G; [|now apply same].
    destruct (JsMap.get userId (players room)); apply same;
      [eapply upd; eauto | reflexivity].
  - rewrite after_isRoomOwner. now apply same.
  - rewrite rooms_changeRoomOwner.
    destruct (JsMap.get roomId (rooms s)) as [room|] eqn:G; [|now apply same].
    destruct (JsMap.has newOwnerId (players room)); apply same;
      [eapply upd; eauto | reflexivity].
  - rewrite rooms_cleanupEmptyRooms. now apply sweep_survive.
Qed.

(** *** What the flags of a room do not affect *)

Lemma remove_touch roomId userId (g : Room -> Room) s s1 :
  JsMap.wf (rooms s) ->
  (forall r, players (g r) = players r) ->
  (forall r, ownerId (g r) = ownerId r) ->
  (forall r p, g (with_players r p) = with_players (g r) p) ->
  (forall r o, g (with_ownerId r o) = with_ownerId (g r) o) ->
  rooms s1 = touch roomId g (rooms s) ->
  rooms (after (removePlayerFromRoom roomId userId) s1)
    = touch roomId g (rooms (after (removePlayerFromRoom roomId userId) s)) /\
  result (removePlayerFromRoom roomId userId) s1
    = result (removePlayerFromRoom roomId userId) s.
Proof.
  intros W Hp Ho Hc Hw E.
  rewrite !result_removePlayerFromRoom, !rooms_removePlayerFromRoom, E.
  destruct (JsMap.get roomId (rooms s)) as [room|] eqn:G.
  2:{ assert (T0 : touch roomId g (rooms s) = rooms s)
        by (unfold touch; now rewrite G).
      rewrite T0, G. auto. }
  assert (T0 : touch roomId g (rooms s) = JsMap.set roomId (g room) (rooms s))
    by (unfold touch; now rewrite G).
  assert (Hk : JsMap.has roomId (rooms s) = true) by (apply JsMap.has_get; eauto).
  rewrite T0, !JsMap.get_set_same, Hp. split; [|reflexivity].
  assert (L : left (g room) userId = g (left room userId))
    by (unfold left; now rewrite Hc, Hp).
  rewrite L, Hp, Ho.
  destruct (JsMap.has userId (players room)); cbn [negb]; [|now rewrite T0].
  destruct (Nat.eqb _ 0).
  - rewrite JsMap.set_set, !JsMap.delete_set_any by exact Hk.
    unfold touch. now rewrite JsMap.get_delete_same.
  - assert (T : forall v, touch roomId g (JsMap.set roomId v (rooms s))
                          = JsMap.set roomId (g v) (rooms s)).
    { intro v. unfold touch. rewrite JsMap.get_set_same. apply JsMap.set_set. }
    destruct (strict_eq _ userId).
    + destruct (JsMap.keys (players (left room userId)));
        now rewrite JsMap.set_set, T, ?Hw.
    + now rewrite JsMap.set_set, T.
Qed.

Lemma add_touch roomId userId userInfo connectionId (g : Room -> Room) s s1 :
  (forall r, players (g r) = players r) ->
  (forall r, maxPlayers (g r) = maxPlayers r) ->
  (forall r, locked (g r) = locked r) ->
  (forall r p, g (with_players r p) = with_players (g r) p) ->
  rooms s1 = touch roomId g (rooms s) ->
  rooms (after (addPlayerToRoom roomId userId userInfo connectionId) s1)
    = touch roomId g
        (rooms (after (addPlayerToRoom roomId userId userInfo connectionId) s)) /\
  result (addPlayerToRoom roomId userId userInfo connectionId) s1
    = result (addPlayerToRoom roomId userId userInfo connectionId) s.
Proof.
  intros Hp Hm Hl Hc E.
  rewrite !result_addPlayerToRoom, !rooms_addPlayerToRoom, E.
  destruct (JsMap.get roomId (rooms s)) as [room|] eqn:G.
  2:{ assert (T0 : touch roomId g (rooms s) = rooms s)
        by (unfold touch; now rewrite G).
      rewrite T0, G. auto. }
  assert (T0 : touch roomId g (rooms s) = JsMap.set roomId (g room) (rooms s))
    by (unfold touch; now rewrite G).
  rewrite T0, !JsMap.get_set_same.
  assert (A : admits (g room) = admits room)
    by (unfold admits; now rewrite Hp, Hm, Hl).
  assert (J : joined (g room) userId userInfo connectionId
              = g (joined room userId userInfo connectionId))
    by (unfold joined; now rewrite Hc, Hp).
  rewrite A, J. split; [|reflexivity].
  destruct (admits room); [|now rewrite T0].
  unfold touch. rewrite JsMap.get_set_same. now rewrite !JsMap.set_set.
Qed.

(** X14. The lock gates admission and nothing else, and [cycle] and
    [state] gate nothing.  On a registry that is a Map,
    [removePlayerFromRoom] returns the same and leads to the same rooms
    whether [setRoomLocked], [setRoomCycle] or [setRoomState] on that
    room runs before or after it; so does [addPlayerToRoom] for
    [setRoomCycle] and [setRoomState]. *)
Theorem room_flags_are_passive s roomId userId :
  JsMap.wf (rooms s) ->
  (forall b,
     result (removePlayerFromRoom roomId userId) (after (setRoomLocked roomId b) s)
       = result (removePlayerFromRoom roomId userId) s /\
     rooms (after (removePlayerFromRoom roomId userId) (after (setRoomLocked roomId b) s))
       = rooms (after (setRoomLocked roomId b) (after (removePlayerFromRoom roomId userId) s)))
  /\ (forall c,
        result (removePlayerFromRoom roomId userId) (after (setRoomCycle roomId c) s)
          = result (removePlayerFromRoom roomId userId) s /\
        rooms (after (removePlayerFromRoom roomId userId) (after (setRoomCycle roomId c) s))
          = rooms (after (setRoomCycle roomId c) (after (removePlayerFromRoom roomId userId) s)))
  /\ (forall st,
        result (removePlayerFromRoom roomId userId) (after (setRoomState roomId st) s)
          = result (removePlayerFromRoom roomId userId) s /\
        rooms (after (removePlayerFromRoom roomId userId) (after (setRoomState roomId st) s))
          = rooms (after (setRoomState roomId st) (after (removePlayerFromRoom roomId userId) s)))
  /\ (forall c userInfo connectionId,
        result (addPlayerToRoom roomId userId userInfo connectionId)
          (after (setRoomCycle roomId c) s)
          = result (addPlayerToRoom roomId userId userInfo connectionId) s /\
        rooms (after (addPlayerToRoom roomId userId userInfo connectionId)
                 (after (setRoomCycle roomId c) s))
          = rooms (after (setRoomCycle roomId c)
                     (after (addPlayerToRoom roomId userId userInfo connectionId) s)))
  /\ (forall st userInfo connectionId,
        result (addPlayerToRoom roomId userId userInfo connectionId)
          (after (setRoomState roomId st) s)
          = result (addPlayerToRoom roomId userId userInfo connectionId) s /\
        rooms (after (addPlayerToRoom roomId userId userInfo connectionId)
                 (after (setRoomState roomId st) s))
          = rooms (after (setRoomState roomId st)
                     (after (addPlayerToRoom roomId userId userInfo connectionId) s))).
Proof.
  intro W. split; [|split; [|split; [|split]]].
  - intro b.
    destruct (remove_touch roomId userId (fun r => with_locked r b) s
                (after (setRoomLocked roomId b) s) W) as [E R]; try reflexivity.
    + apply rooms_setRoomLocked.
    + split; [exact R|]. rewrite E. symmetry. apply rooms_setRoomLocked.
  - intro c.
    destruct (remove_touch roomId userId (fun r => with_cycle r c) s
                (after (setRoomCycle roomId c) s) W) as [E R]; try reflexivity.
    + apply rooms_setRoomCycle.
    + split; [exact R|]. rewrite E. symmetry. apply rooms_setRoomCycle.
  - intro st.
    destruct (remove_touch roomId userId (fun r => with_state r st) s
                (after (setRoomState roomId st) s) W) as [E R]; try reflexivity.
    + apply rooms_setRoomState.
    + split; [exact R|]. rewrite E. symmetry. apply rooms_setRoomState.
  - intros c userInfo connectionId.
    destruct (add_touch roomId userId userInfo connectionId (fun r => with_cycle r c) s
                (after (setRoomCycle roomId c) s)) as [E R]; try reflexivity.
    + apply rooms_setRoomCycle.
    + split; [exact R|]. rewrite E. symmetry. apply rooms_setRoomCycle.
  - intros st userInfo connectionId.
    destruct (add_touch roomId userId userInfo connectionId (fun r => with_state r st) s
                (after (setRoomState roomId st) s)) as [E R]; try reflexivity.
    + apply rooms_setRoomState.
    + split; [exact R|]. rewrite E. symmetry. apply rooms_setRoomState.
Qed.

(** *** What a call leaves alone *)

(** X15. Each field of a room changes through its own calls only.  For
    a room registered under the same key before and after a call: the
    owner differs only after [changeRoomOwner] on that room or the
    removal of its owner; the players differ only after
    [addPlayerToRoom], [removePlayerFromRoom] or [setPlayerReady] on
    that room; [locked], [cycle] and [state] differ only after their
    setter on that room. *)
Theorem fields_change_by_their_own_calls s c k r r' :
  JsMap.wf (rooms s) ->
  JsMap.get k (rooms s) = Some r ->
  JsMap.get k (rooms (after (call c) s)) = Some r' ->
  (ownerId r' <> ownerId r ->
   (exists newOwnerId, c = ChangeRoomOwner k newOwnerId) \/
   c = RemovePlayerFromRoom k (ownerId r))
  /\ (players r' <> players r ->
      (exists userId userInfo connectionId,
         c = AddPlayerToRoom k userId userInfo connectionId) \/
      (exists userId, c = RemovePlayerFromRoom k userId) \/
      (exists userId ready, c = SetPlayerReady k userId ready))
  /\ (locked r' <> locked r -> exists b, c = SetRoomLocked k b)
  /\ (cycle r' <> cycle r -> exists b, c = SetRoomCycle k b)
  /\ (state r' <> state r -> exists st, c = SetRoomState k st).
Proof.
  intros W G G'.
  assert (Same : r' = r ->
    (ownerId r' <> ownerId r ->
     (exists newOwnerId, c = ChangeRoomOwner k newOwnerId) \/
     c = RemovePlayerFromRoom k (ownerId r))
    /\ (players r' <> players r ->
        (exists userId userInfo connectionId,
           c = AddPlayerToRoom k userId userInfo connectionId) \/
        (exists userId, c = RemovePlayerFromRoom k userId) \/
        (exists userId ready, c = SetPlayerReady k userId ready))
    /\ (locked r' <> locked r -> exists b, c = SetRoomLocked k b)
    /\ (cycle r' <> cycle r -> exists b, c = SetRoomCycle k b)
    /\ (state r' <> state r -> exists st, c = SetRoomState k st)).
  { intros ->. repeat split; intro N; now contradiction N. }
  destruct (step_rooms _ _ _ _ (JsMap.get_In _ _ _ G'))
    as [I|[[r0 [I St]]|[o [n [-> [-> _]]]]]].
  - apply Same. apply (JsMap.In_get _ _ _ W) in I. congruence.
  - assert (r0 = r) by (apply (JsMap.In_get _ _ _ W) in I; congruence).
    subst r0. clear Same.
    destruct St; simpl; repeat split; intro N;
      try (now contradiction N); eauto 6.
  - apply Same. unfold call in G'. rewrite after_bind_ret, rooms_createRoom in G'.
    assert (E : JsMap.has (o_id o) (rooms s) = true) by (apply JsMap.has_get; eauto).
    rewrite E in G'. congruence.
Qed.

(** X16. A call leaves every room it does not name as it is: on a
    registry that is a Map, a room under another id than the one the
    call names is returned unchanged by [getRoom] after the call.  The
    calls that name no room change none either, except
    [cleanupEmptyRooms], which spares every room that has a player. *)
Theorem calls_touch_only_the_room_they_name s c k r :
  JsMap.wf (rooms s) ->
  JsMap.get k (rooms s) = Some r ->
  target c <> Some k ->
  (c = CleanupEmptyRooms -> JsMap.size (players r) <> 0%nat) ->
  result (getRoom k) (after (call c) s) = Returned (Some r).
Proof.
  intros W G T Keep. rewrite result_getRoom. f_equal.
  assert (upd : forall roomId new,
            Some roomId <> Some k ->
            JsMap.get k (JsMap.set roomId new (rooms s)) = Some r).
  { intros roomId new N. rewrite JsMap.get_set_other; [exact G | congruence]. }
  destruct c; unfold call; rewrite after_bind_ret; simpl in T.
  - rewrite rooms_createRoom. destruct (JsMap.has _ _); [exact G | now apply upd].
  - exact G.
  - rewrite rooms_deleteRoom, JsMap.get_delete_other; [exact G | congruence].
  - exact G.
  - exact G.
  - rewrite rooms_addPlayerToRoom.
    destruct (JsMap.get roomId (rooms s)) as [room|]; [|exact G].
    destruct (admits room); [now apply upd | exact G].
  - rewrite rooms_removePlayerFromRoom.
    destruct (JsMap.get roomId (rooms s)) as [room|]; [|exact G].
    destruct (negb _); [exact G|].
    destruct (Nat.eqb _ _).
    + rewrite JsMap.get_delete_other by congruence. now apply upd.
    + destruct (strict_eq _ _); [|now apply upd].
      destruct (JsMap.keys (players (left room userId))); now apply upd.
  - exact G.
  - rewrite rooms_setRoomState.
    destruct (JsMap.get roomId (rooms s)); [now apply upd | exact G].
  - rewrite rooms_setRoomLocked.
    destruct (JsMap.get roomId (rooms s)); [now apply upd | exact G].
  - rewrite rooms_setRoomCycle.
    destruct (JsMap.get roomId (rooms s)); [now apply upd | exact G].
  - rewrite rooms_setPlayerReady.
    destruct (JsMap.get roomId (rooms s)) as [room|]; [|exact G].
    destruct (JsMap.get userId (players room)); [now apply upd | exact G].
  - rewrite after_isRoomOwner. exact G.
  - rewrite rooms_changeRoomOwner.
    destruct (JsMap.get roomId (rooms s)) as [room|]; [|exact G].
    destruct (JsMap.has newOwnerId (players room)); [now apply upd | exact G].
  - rewrite rooms_cleanupEmptyRooms, sweep_filter, JsMap.get_filter, G by exact W.
    unfold is_empty_entry. simpl.
    destruct (Nat.eqb_spec (JsMap.size (players r)) 0) as [Z0|_]; [|reflexivity].
    now contradiction (Keep eq_refl).
Qed.

(** *** Calls that return false *)

Lemma deleteRoom_refused id s :
  result (deleteRoom id) s = Returned false -> after (deleteRoom id) s = s.
Proof.
  rewrite result_deleteRoom. intro R. inversion R as [E].
  unfold deleteRoom. run_m. rewrite E. simpl.
  rewrite JsMap.delete_absent by exact E. now destruct s.
Qed.

Lemma setRoomState_refused roomId st s :
  result (setRoomState roomId st) s = Returned false ->
  after (setRoomState roomId st) s = s.
Proof.
  unfold setRoomState. run_m.
  destruct (JsMap.get roomId (rooms s)); simpl; [discriminate | reflexivity].
Qed.

Lemma setRoomLocked_refused roomId b s :
  result (setRoomLocked roomId b) s = Returned false ->
  after (setRoomLocked roomId b) s = s.
Proof.
  unfold setRoomLocked. run_m.
  destruct (JsMap.get roomId (rooms s)); simpl; [discriminate | reflexivity].
Qed.

Lemma setRoomCycle_refused roomId b s :
  result (setRoomCycle roomId b) s = Returned false ->
  after (setRoomCycle roomId b) s = s.
Proof.
  unfold setRoomCycle. run_m.
  destruct (JsMap.get roomId (rooms s)); simpl; [discriminate | reflexivity].
Qed.

Lemma setPlayerReady_refused roomId userId ready s :
  result (setPlayerReady roomId userId ready) s = Returned false ->
  after (setPlayerReady roomId userId ready) s = s.
Proof.
  unfold setPlayerReady. run_m.
  destruct (JsMap.get roomId (rooms s)) as [room|]; [|reflexivity].
  destruct (JsMap.get userId (players room)); simpl; [discriminate | reflexivity].
Qed.

Lemma removePlayerFromRoom_refused roomId userId s :
  result (removePlayerFromRoom roomId userId) s = Returned false ->
  after (removePlayerFromRoom roomId userId) s = s.
Proof.
  rewrite result_removePlayerFromRoom. intro R.
  unfold removePlayerFromRoom. run_m.
  destruct (JsMap.get roomId (rooms s)) as [room|] eqn:G; [|reflexivity].
  inversion R as [Hu]. rewrite Hu. simpl. apply same_manager.
  rewrite JsMap.delete_absent by exact Hu.
  apply JsMap.set_get_same. rewrite G. now destruct room.
Qed.

Lemma addPlayerToRoom_refused roomId userId userInfo connectionId s :
  result (addPlayerToRoom roomId userId userInfo connectionId) s = Returned false ->
  rooms (after (addPlayerToRoom roomId userId userInfo connectionId) s) = rooms s /\
  exists e,
    logger (after (addPlayerToRoom roomId userId userInfo connectionId) s)
      = logger s ++ [e] /\
    level e = LvWarn.
Proof.
  unfold addPlayerToRoom. run_m.
  destruct (JsMap.get roomId (rooms s)) as [room|]; simpl.
  - destruct (_ >=? _); simpl; [eauto|].
    destruct (locked room); simpl; [eauto | discriminate].
  - eauto.
Qed.

(** X17. A call that returns [false] has changed nothing: the manager
    is as it was, log included.  The one exception is
    [addPlayerToRoom], which leaves the rooms as they were and logs one
    warning. *)
Theorem false_means_nothing_changed s c :
  result (call c) s = Returned (VBoolean false) ->
  match c with
  | AddPlayerToRoom _ _ _ _ =>
      rooms (after (call c) s) = rooms s /\
      exists e, logger (after (call c) s) = logger s ++ [e] /\ level e = LvWarn
  | _ => after (call c) s = s
  end.
Proof.
  assert (bool_result : forall (m : M bool),
            result (b <- m ;; ret (VBoolean b)) s = Returned (VBoolean false) ->
            result m s = Returned false).
  { intros m. rewrite result_bind_ret. destruct (result m s) as [b|msg]; [|discriminate].
    intro E. inversion E. reflexivity. }
  destruct c; unfold call; rewrite after_bind_ret; intro R;
    try (rewrite result_bind_ret in R; simpl in R; discriminate R);
    try (apply bool_result in R).
  - rewrite result_bind_ret, result_createRoom in R.
    destruct (JsMap.has _ _); discriminate.
  - now apply deleteRoom_refused.
  - now apply addPlayerToRoom_refused.
  - now apply removePlayerFromRoom_refused.
  - now apply setRoomState_refused.
  - now apply setRoomLocked_refused.
  - now apply setRoomCycle_refused.
  - now apply setPlayerReady_refused.
  - apply after_isRoomOwner.
  - now apply changeRoomOwner_refused.
  - rewrite result_bind_ret, result_cleanupEmptyRooms in R. discriminate.
Qed.

(** *** Ownership with and without NaN *)

(** X18 (invariant 2, apart from NaN).  After every sequence of calls
    on a new manager in which no [removePlayerFromRoom] is given the
    player NaN, the [ownerId] of every registered room is a key of its
    [players] map. *)
Theorem owner_is_member_unless_nan_is_removed cs :
  Forall no_nan_removal cs ->
  forall room,
    registered (run cs new_manager) room ->
    JsMap.has (ownerId room) (players room) = true.
Proof.
  intros A room R.
  exact (run_invariant_on owner_ok no_nan_removal
           (fun options now _ => initial_room_owner options now)
           room_step_owner cs A room R).
Qed.

(** X19. Owner succession.  Removing the owner of a room that has at
    least two players, when the owner is not NaN, returns [true] and
    keeps the room registered, without that player; the new owner is
    the first key of the remaining [players] map.  The room is any room
    of any registry whose [players] is a Map (distinct keys) that holds
    the owner.  Afterwards [isRoomOwner] is [false] for the removed
    player, and [true] exactly for the new owner, unless the new owner
    is NaN: then it is [true] for nobody. *)
Theorem removePlayerFromRoom_succession_of_ordinary_owner s roomId room :
  JsMap.get roomId (rooms s) = Some room ->
  JsMap.wf (players room) ->
  JsMap.has (ownerId room) (players room) = true ->
  ownerId room <> NaN ->
  (2 <= JsMap.size (players room))%nat ->
  result (removePlayerFromRoom roomId (ownerId room)) s = Returned true /\
  exists room' newOwner rest,
    result (getRoom roomId) (after (removePlayerFromRoom roomId (ownerId room)) s)
      = Returned (Some room') /\
    players room' = JsMap.delete (ownerId room) (players room) /\
    JsMap.keys (players room') = newOwner :: rest /\
    ownerId room' = newOwner /\
    result (isRoomOwner roomId (ownerId room))
      (after (removePlayerFromRoom roomId (ownerId room)) s) = Returned false /\
    forall userId,
      result (isRoomOwner roomId userId)
        (after (removePlayerFromRoom roomId (ownerId room)) s) = Returned true
      <-> userId = newOwner /\ userId <> NaN.
Proof.
  intros G W O Nn Two.
  split; [now rewrite result_removePlayerFromRoom, G, O|].
  pose proof (JsMap.size_delete _ _ O) as Sz.
  assert (E : rooms (after (removePlayerFromRoom roomId (ownerId room)) s) =
              match JsMap.keys (JsMap.delete (ownerId room) (players room)) with
              | newOwner :: _ =>
                  JsMap.set roomId
                    (with_ownerId (left room (ownerId room)) newOwner) (rooms s)
              | [] => JsMap.set roomId (left room (ownerId room)) (rooms s)
              end).
  { rewrite rooms_removePlayerFromRoom, G, O. simpl.
    destruct (Nat.eqb_spec (JsMap.size (JsMap.delete (ownerId room) (players room))) 0)
      as [Z0|Z0]; [lia|].
    now rewrite strict_eq_refl. }
  destruct (JsMap.keys (JsMap.delete (ownerId room) (players room)))
    as [|newOwner rest] eqn:Ks.
  { exfalso. rewrite <- JsMap.size_keys, Ks in Sz. simpl in Sz. lia. }
  exists (with_ownerId (left room (ownerId room)) newOwner), newOwner, rest.
  assert (N : newOwner <> ownerId room).
  { intro E0.
    assert (I : JsMap.has newOwner (JsMap.delete (ownerId room) (players room)) = true)
      by (apply JsMap.In_keys_has; rewrite Ks; now left).
    rewrite E0, JsMap.has_delete_same in I by exact W. discriminate. }
  split; [|split; [|split; [|split; [|split]]]].
  - now rewrite result_getRoom, E, JsMap.get_set_same.
  - reflexivity.
  - exact Ks.
  - reflexivity.
  - rewrite result_isRoomOwner, E, JsMap.get_set_same. simpl. f_equal.
    now apply strict_eq_neq.
  - intro userId. rewrite result_isRoomOwner, E, JsMap.get_set_same. simpl. split.
    + intro R. inversion R as [R']. apply strict_eq_true in R' as [<- Nu]. auto.
    + intros [-> Nu]. now rewrite strict_eq_refl.
Qed.

End Registry.

(** ** A concrete protocol and the scenario of the specification

    User info is a display name and a room state is its tag. *)

#[local] Instance phira_commands : Commands := {|
  UserInfo := string;
  RoomState := string;
  SelectChart := "SelectChart";
  state_tag := fun st => st
|}.

Definition r1_options : CreateRoomOptions := {|
  o_id := "r1"; o_name := "lobby"; o_ownerId := 1; o_ownerInfo := "alice";
  o_connectionId := "conn-1"; o_maxPlayers := Some 2; o_password := None
|}.

Definition alice : PlayerInfo :=
  {| user := "alice"; connectionId := "conn-1"; isReady := false |}.

Definition bob : PlayerInfo :=
  {| user := "bob"; connectionId := "conn-2"; isReady := false |}.

(** Room r1 with its owner alone, with both players, and with bob alone. *)
Definition r1_created : Room := initial_room r1_options 1000.

Definition r1_full : Room :=
  with_players r1_created [(Num 1, alice); (Num 2, bob)].

Definition r1_bob : Room :=
  with_ownerId (with_players r1_created [(Num 2, bob)]) 2.

Definition scenario : list Call :=
  [ CreateRoom r1_options 1000;
    AddPlayerToRoom "r1" 2 "bob" "conn-2";
    Count;
    ListRooms;
    AddPlayerToRoom "r1" 3 "carol" "conn-3";
    RemovePlayerFromRoom "r1" 1;
    GetRoom "r1";
    RemovePlayerFromRoom "r1" 2;
    GetRoom "r1";
    Count ].

Example scenario_outcomes :
  outcomes scenario new_manager =
  [ Returned (VRoom r1_created);
    Returned (VBoolean true);
    Returned (VNumber 1);
    Returned (VRooms [r1_full]);
    Returned (VBoolean false);
    Returned (VBoolean true);
    Returned (VMaybeRoom (Some r1_bob));
    Returned (VBoolean true);
    Returned (VMaybeRoom None);
    Returned (VNumber 0) ].
Proof. vm_compute. reflexivity. Qed.

(** The registry after r1 is created, after bob joins, and after the
    owner leaves. *)
Definition created : list Call := [CreateRoom r1_options 1000].

Definition both_in : list Call := created ++ [AddPlayerToRoom "r1" 2 "bob" "conn-2"].

Definition owner_left : list Call := both_in ++ [RemovePlayerFromRoom "r1" 1].

(** A registry that holds an empty room, as only a caller who empties a
    returned room by hand can produce. *)
Definition with_empty_room : InMemoryRoomManager :=
  {| rooms := [("r0", with_players r1_created []); ("r1", r1_full)]; logger := [] |}.

Lemma rooms_are_never_empty_witness :
  result (removePlayerFromRoom "r1" 2) (run owner_left new_manager) = Returned true /\
  result (getRoom "r1")
    (after (removePlayerFromRoom "r1" 2) (run owner_left new_manager))
    = Returned None /\
  exists n,
    result count (after (removePlayerFromRoom "r1" 2) (run owner_left new_manager))
      = Returned n /\
    result count (run owner_left new_manager) = Returned (S n).
Proof.
  apply (proj2 rooms_are_never_empty owner_left "r1" 2 r1_bob); reflexivity.
Defined.

Lemma capacity_is_respected_witness :
  Forall positive_capacity both_in /\
  registered (run both_in new_manager) r1_full /\
  Z.of_nat (JsMap.size (players r1_full)) <= maxPlayers r1_full.
Proof.
  assert (A : Forall positive_capacity both_in)
    by (repeat constructor; simpl; lia).
  assert (R : registered (run both_in new_manager) r1_full)
    by (vm_compute; auto).
  split; [exact A|]. split; [exact R|].
  exact (capacity_is_respected both_in A r1_full R).
Defined.

Lemma only_createRoom_throws_witness :
  JsMap.has (o_id r1_options) (rooms (run created new_manager)) = true /\
  exists msg,
    result (createRoom r1_options 2000) (run created new_manager) = Thrown msg.
Proof.
  split; [reflexivity|].
  apply (proj1 only_createRoom_throws (run created new_manager) r1_options 2000).
  reflexivity.
Defined.

Lemma addPlayerToRoom_admission_witness :
  result (setRoomLocked "r1" true) (run created new_manager) = Returned true /\
  result (addPlayerToRoom "r1" 2 "bob" "conn-2")
    (run [SetRoomCycle "r1" true; SetPlayerReady "r1" 1 true]
       (after (setRoomLocked "r1" true) (run created new_manager)))
    = Returned false /\
  rooms (after (addPlayerToRoom "r1" 2 "bob" "conn-2")
           (run [SetRoomCycle "r1" true; SetPlayerReady "r1" 1 true]
              (after (setRoomLocked "r1" true) (run created new_manager))))
    = rooms (run [SetRoomCycle "r1" true; SetPlayerReady "r1" 1 true]
               (after (setRoomLocked "r1" true) (run created new_manager))).
Proof.
  apply (proj1 (proj2 (proj2 (proj2 (proj2 addPlayerToRoom_admission))))).
  - apply wf_run.
  - reflexivity.
  - repeat constructor.
Defined.

Lemma addPlayerToRoom_member_of_closed_room_witness :
  maxPlayers r1_full <= Z.of_nat (JsMap.size (players r1_full)) /\
  result (addPlayerToRoom "r1" 2 "bobby" "conn-9") (run both_in new_manager)
    = Returned false /\
  rooms (after (addPlayerToRoom "r1" 2 "bobby" "conn-9") (run both_in new_manager))
    = rooms (run both_in new_manager).
Proof.
  assert (F : maxPlayers r1_full <= Z.of_nat (JsMap.size (players r1_full)))
    by (simpl; lia).
  split; [exact F|].
  destruct (addPlayerToRoom_member_of_closed_room
              (run both_in new_manager) "r1" r1_full 2 bob "bobby" "conn-9"
              eq_refl eq_refl (or_introl F)) as [R [E _]].
  split; [exact R | exact E].
Defined.

Lemma changeRoomOwner_members_only_witness :
  result (changeRoomOwner "r1" 2) (run both_in new_manager) = Returned true /\
  result (changeRoomOwner "r1" 7) (run both_in new_manager) = Returned false /\
  after (changeRoomOwner "r1" 7) (run both_in new_manager) = run both_in new_manager.
Proof.
  destruct (changeRoomOwner_members_only (run both_in new_manager) "r1" 2)
    as [_ [_ Yes]].
  destruct (changeRoomOwner_members_only (run both_in new_manager) "r1" 7)
    as [_ [No _]].
  split.
  - exact (proj1 (Yes r1_full eq_refl eq_refl)).
  - exact (No r1_full eq_refl eq_refl).
Defined.

Lemma cleanupEmptyRooms_removes_only_empty_rooms_witness :
  after cleanupEmptyRooms (run both_in new_manager) = run both_in new_manager /\
  rooms (after cleanupEmptyRooms with_empty_room) = [("r1", r1_full)].
Proof.
  split.
  - apply (proj1 cleanupEmptyRooms_removes_only_empty_rooms).
    intros room [<-|[]]. discriminate.
  - assert (W : JsMap.wf (rooms with_empty_room))
      by (repeat constructor; simpl; intuition discriminate).
    rewrite (proj1 (proj2 cleanupEmptyRooms_removes_only_empty_rooms with_empty_room W)).
    reflexivity.
Defined.

Lemma getRoomByUserId_first_match_witness :
  result (getRoomByUserId 2) (run both_in new_manager) = Returned (Some r1_full) /\
  result (getRoomByUserId 7) (run both_in new_manager) = Returned None.
Proof.
  split.
  - apply (proj1 (proj2 (proj2 (getRoomByUserId_first_match (run both_in new_manager) 2)))).
    exists [], []. repeat split. intros r [].
  - apply (proj2 (proj2 (proj2 (getRoomByUserId_first_match (run both_in new_manager) 7)))).
    intros room [<-|[]]. reflexivity.
Defined.

(** A second room, created after bob has joined r1. *)
Definition r2_options : CreateRoomOptions := {|
  o_id := "r2"; o_name := "annex"; o_ownerId := 5; o_ownerInfo := "eve";
  o_connectionId := "conn-5"; o_maxPlayers := None; o_password := Some "secret"
|}.

Definition two_rooms : list Call := both_in ++ [CreateRoom r2_options 2000].

Lemma deleteRoom_removes_that_room_only_witness :
  JsMap.wf (rooms (run both_in new_manager)) /\
  result (deleteRoom "r1") (run both_in new_manager) = Returned true /\
  result (getRoom "r1") (after (deleteRoom "r1") (run both_in new_manager))
    = Returned None.
Proof.
  assert (W : JsMap.wf (rooms (run both_in new_manager))) by apply wf_run.
  destruct (deleteRoom_removes_that_room_only (run both_in new_manager) "r1" W)
    as [R [G _]].
  split; [exact W|]. split; [exact R | exact G].
Defined.

Lemma creation_fields_are_fixed_witness :
  maxPlayers (with_locked r1_full true) = maxPlayers r1_full /\
  createdAt (with_locked r1_full true) = createdAt r1_full.
Proof.
  destruct (creation_fields_are_fixed (run both_in new_manager)
              (SetRoomLocked "r1" true) "r1" r1_full (with_locked r1_full true)
              (wf_run both_in) eq_refl eq_refl)
    as [_ [_ [M [_ [_ C]]]]].
  split; [exact M | exact C].
Defined.

Lemma setPlayerReady_sets_one_flag_witness :
  result (setPlayerReady "r1" 2 true) (run both_in new_manager) = Returned true.
Proof.
  exact (proj1 (proj2 (setPlayerReady_sets_one_flag (run both_in new_manager) "r1" 2 true)
                  r1_full bob eq_refl eq_refl)).
Defined.

Lemma addPlayerToRoom_keeps_join_order_witness :
  exists room',
    result (getRoom "r1")
      (after (addPlayerToRoom "r1" 2 "bob" "conn-2") (run created new_manager))
      = Returned (Some room') /\
    JsMap.keys (players room') = [Num 1; Num 2].
Proof.
  destruct (addPlayerToRoom_keeps_join_order (run created new_manager) "r1" r1_created
              2 "bob" "conn-2" eq_refl eq_refl eq_refl)
    as [room' [G [_ [_ [_ [K _]]]]]].
  exists room'. split; [exact G|]. exact (K eq_refl).
Defined.

Lemma createRoom_appends_and_deleteRoom_undoes_witness :
  exists room,
    result (createRoom r2_options 2000) (run both_in new_manager) = Returned room /\
    result listRooms (after (createRoom r2_options 2000) (run both_in new_manager))
      = Returned [r1_full; room] /\
    rooms (after (deleteRoom "r2")
             (after (createRoom r2_options 2000) (run both_in new_manager)))
      = rooms (run both_in new_manager).
Proof.
  destruct (createRoom_appends_and_deleteRoom_undoes (run both_in new_manager)
              r2_options 2000 eq_refl)
    as [room [R [L [_ [_ [_ D]]]]]].
  exists room. split; [exact R|]. split; [exact L | exact D].
Defined.

Lemma addPlayerToRoom_then_removePlayerFromRoom_witness :
  rooms (after (removePlayerFromRoom "r1" 2)
           (after (addPlayerToRoom "r1" 2 "bob" "conn-2") (run created new_manager)))
    = rooms (run created new_manager).
Proof.
  exact (proj2 (addPlayerToRoom_then_removePlayerFromRoom (run created new_manager)
                  "r1" r1_created 2 "bob" "conn-2"
                  eq_refl eq_refl eq_refl eq_refl eq_refl)).
Defined.

Lemma removePlayerFromRoom_of_other_member_witness :
  result (removePlayerFromRoom "r1" 2) (run both_in new_manager) = Returned true /\
  after (removePlayerFromRoom "r1" 7) (run both_in new_manager)
    = run both_in new_manager.
Proof.
  destruct (removePlayerFromRoom_of_other_member (run both_in new_manager) "r1" 2)
    as [_ Yes].
  destruct (removePlayerFromRoom_of_other_member (run both_in new_manager) "r1" 7)
    as [No _].
  split.
  - assert (W : JsMap.wf (players r1_full))
      by (repeat constructor; simpl; intuition discriminate).
    assert (D : ownerId r1_full <> 2) by discriminate.
    exact (proj1 (Yes r1_full eq_refl W eq_refl eq_refl D)).
  - exact (No eq_refl).
Defined.

Lemma log_reports_the_number_of_rooms_witness :
  reported_total (logger (run two_rooms new_manager)) = 2.
Proof.
  exact (proj2 log_reports_the_number_of_rooms two_rooms 2%nat eq_refl).
Defined.

Lemma getRoomByUserId_follows_membership_witness :
  result (getRoomByUserId 2)
    (after (removePlayerFromRoom "r1" 2) (run both_in new_manager)) = Returned None.
Proof.
  apply (getRoomByUserId_follows_membership (run both_in new_manager) "r1" 2).
  - apply wf_run.
  - intros k r [E|[]] N. inversion E. congruence.
  - intros room E. inversion E.
    repeat constructor; simpl; intuition discriminate.
Defined.

Lemma calls_keep_the_registry_order_witness :
  JsMap.keys (rooms (after (call (CreateRoom r2_options 2000)) (run both_in new_manager)))
    = ["r1"; "r2"] /\
  JsMap.keys (rooms (after (call (DeleteRoom "r1")) (run two_rooms new_manager)))
    = ["r2"].
Proof.
  split.
  - exact (calls_keep_the_registry_order (run both_in new_manager)
             (CreateRoom r2_options 2000) (wf_run both_in)).
  - pose proof (calls_keep_the_registry_order (run two_rooms new_manager)
                  (DeleteRoom "r1") (wf_run two_rooms)) as K.
    cbv iota in K. rewrite K. reflexivity.
Defined.

Lemma room_flags_are_passive_witness :
  rooms (after (removePlayerFromRoom "r1" 1)
           (after (setRoomLocked "r1" true) (run both_in new_manager)))
    = rooms (after (setRoomLocked "r1" true)
               (after (removePlayerFromRoom "r1" 1) (run both_in new_manager))).
Proof.
  exact (proj2 (proj1 (room_flags_are_passive (run both_in new_manager) "r1" 1
                         (wf_run both_in)) true)).
Defined.

Lemma fields_change_by_their_own_calls_witness :
  (exists newOwnerId, ChangeRoomOwner "r1" 2 = ChangeRoomOwner "r1" newOwnerId) \/
  ChangeRoomOwner "r1" 2 = RemovePlayerFromRoom "r1" (ownerId r1_full).
Proof.
  apply (proj1 (fields_change_by_their_own_calls (run both_in new_manager)
                  (ChangeRoomOwner "r1" 2) "r1" r1_full (with_ownerId r1_full 2)
                  (wf_run both_in) eq_refl eq_refl)).
  discriminate.
Defined.

Lemma calls_touch_only_the_room_they_name_witness :
  result (getRoom "r1") (after (call (DeleteRoom "r2")) (run two_rooms new_manager))
    = Returned (Some r1_full).
Proof.
  apply (calls_touch_only_the_room_they_name (run two_rooms new_manager)
           (DeleteRoom "r2") "r1" r1_full (wf_run two_rooms) eq_refl).
  - discriminate.
  - discriminate.
Defined.

Lemma false_means_nothing_changed_witness :
  result (call (SetRoomLocked "r9" true)) (run both_in new_manager)
    = Returned (VBoolean false) /\
  after (call (SetRoomLocked "r9" true)) (run both_in new_manager)
    = run both_in new_manager.
Proof.
  split; [reflexivity|].
  exact (false_means_nothing_changed (run both_in new_manager)
           (SetRoomLocked "r9" true) eq_refl).
Defined.

Lemma owner_is_member_unless_nan_is_removed_witness :
  Forall no_nan_removal owner_left /\
  registered (run owner_left new_manager) r1_bob /\
  JsMap.has (ownerId r1_bob) (players r1_bob) = true.
Proof.
  assert (A : Forall no_nan_removal owner_left)
    by (repeat constructor; discriminate).
  assert (R : registered (run owner_left new_manager) r1_bob)
    by (vm_compute; auto).
  split; [exact A|]. split; [exact R|].
  exact (owner_is_member_unless_nan_is_removed owner_left A r1_bob R).
Defined.

Lemma removePlayerFromRoom_succession_of_ordinary_owner_witness :
  result (removePlayerFromRoom "r1" (ownerId r1_full)) (run both_in new_manager)
    = Returned true /\
  result (isRoomOwner "r1" 2)
    (after (removePlayerFromRoom "r1" (ownerId r1_full)) (run both_in new_manager))
    = Returned true.
Proof.
  destruct (removePlayerFromRoom_succession_of_ordinary_owner
              (run both_in new_manager) "r1" r1_full)
    as [R _].
  - reflexivity.
  - repeat constructor; simpl; intuition discriminate.
  - reflexivity.
  - discriminate.
  - simpl. lia.
  - split; [exact R | reflexivity].
Defined.

(** ** A room whose owner is NaN

    [createRoom] with [ownerId: NaN], a second player, and the removal
    of the player NaN. *)

Definition nan_options : CreateRoomOptions := {|
  o_id := "r1"; o_name := "lobby"; o_ownerId := NaN; o_ownerInfo := "alice";
  o_connectionId := "conn-1"; o_maxPlayers := Some 2; o_password := None
|}.

Definition nan_and_bob : list Call :=
  [CreateRoom nan_options 1000; AddPlayerToRoom "r1" 2 "bob" "conn-2"].

Definition nan_owner_leaves : list Call :=
  nan_and_bob ++ [RemovePlayerFromRoom "r1" NaN].

(** The room that is left: bob alone, NaN still the owner. *)
Definition r1_orphan : Room :=
  with_players (initial_room nan_options 1000) [(Num 2, bob)].

(** C1.  The invariant fails at the id NaN.  After the calls above,
    which all return, the registry holds a room whose [ownerId] is not
    a key of its [players]: [players.delete(NaN)] removed the owner, but
    [room.ownerId === userId] is false for NaN, so no new owner was
    named. *)
Theorem nan_owner_is_left_without_an_entry :
  outcomes nan_owner_leaves new_manager
    = [Returned (VRoom (initial_room nan_options 1000));
       Returned (VBoolean true);
       Returned (VBoolean true)] /\
  result listRooms (run nan_owner_leaves new_manager) = Returned [r1_orphan] /\
  registered (run nan_owner_leaves new_manager) r1_orphan /\
  JsMap.has (ownerId r1_orphan) (players r1_orphan) = false.
Proof.
  split; [reflexivity|]. split; [reflexivity|]. split; [|reflexivity].
  left. reflexivity.
Qed.

(** C6.  Succession fails at the id NaN.  The room has two players and
    its owner NaN is removed: the call returns [true] and the room
    stays registered with bob as its only player, but the owner is
    still NaN, not the first remaining player, and [isRoomOwner] is
    [true] for no player at all. *)
Theorem nan_owner_gets_no_successor :
  JsMap.get "r1" (rooms (run nan_and_bob new_manager))
    = Some (with_players (initial_room nan_options 1000)
              [(NaN, alice); (Num 2, bob)]) /\
  result (removePlayerFromRoom "r1" NaN) (run nan_and_bob new_manager)
    = Returned true /\
  result (getRoom "r1")
    (after (removePlayerFromRoom "r1" NaN) (run nan_and_bob new_manager))
    = Returned (Some r1_orphan) /\
  JsMap.keys (players r1_orphan) = [Num 2] /\
  ownerId r1_orphan = NaN /\
  forall userId,
    result (isRoomOwner "r1" userId)
      (after (removePlayerFromRoom "r1" NaN) (run nan_and_bob new_manager))
    = Returned false.
Proof.
  split; [reflexivity|]. split; [reflexivity|]. split; [reflexivity|].
  split; [reflexivity|]. split; [reflexivity|].
  intro userId. rewrite result_isRoomOwner. reflexivity.
Qed.
